(** * bitmapist: bit-range counting, key naming, marking and composition

    A shallow embedding of [bitmapist/__init__.py] (Python 2) together
    with a model of the external bit-array store it talks to, and the
    properties of the specification that are settled against it. *)

From Stdlib Require Import ZArith NArith List String Ascii Lia.
From Stdlib Require Import Decimal DecimalString DecimalN.
From stdpp Require Import gmap strings.
Import ListNotations.
Local Open Scope Z_scope.

(** ** Python values and control effects *)

(** The exceptions that the modelled code paths can raise:
    [TypeError] (arithmetic on [None], wrong number of arguments),
    [ValueError] (the mark-value guard) and [ResponseError] (an error
    reply of the store, as raised by the client library). *)
Inductive py_error := TypeError | ValueError | ResponseError.

Inductive exc (A : Type) : Type :=
| Ok (a : A)
| Raise (e : py_error).
Arguments Ok {A} a.
Arguments Raise {A} e.

Definition exc_bind {A B} (m : exc A) (k : A -> exc B) : exc B :=
  match m with
  | Ok a => k a
  | Raise e => Raise e
  end.

Notation "'do' x <- m ; k" := (exc_bind m (fun x => k))
  (at level 10, x name, m at level 100, k at level 200).

(** An optional integer argument is an [option Z]; [None] is Python's
    [None].  [not v] is true for [None] and for [0]. *)
Definition truthy (v : option Z) : bool :=
  match v with
  | None => false
  | Some z => negb (z =? 0)
  end.

(** Python 2 orders [None] before every number. *)
Definition py_lt (a b : option Z) : bool :=
  match a, b with
  | None, None => false
  | None, Some _ => true
  | Some _, None => false
  | Some x, Some y => x <? y
  end.

Definition py_le (a b : option Z) : bool :=
  match a, b with
  | None, _ => true
  | Some _, None => false
  | Some x, Some y => x <=? y
  end.

(** [v + k]: adding an integer to [None] raises [TypeError]. *)
Definition py_add (v : option Z) (k : Z) : exc Z :=
  match v with
  | Some z => Ok (z + k)
  | None => Raise TypeError
  end.

(** An argument position that requires an integer ([xrange]). *)
Definition py_int (v : option Z) : exc Z :=
  match v with
  | Some z => Ok z
  | None => Raise TypeError
  end.

(** [xrange(start, stop, step)].  The only steps the code passes are
    [1] and [-1]; a zero step (a [ValueError] in Python) yields no
    offsets here. *)
Definition xrange (start stop step : Z) : list Z :=
  let n := if 0 <? step then (stop - start + step - 1) / step
           else if step <? 0 then (start - stop - step - 1) / (- step)
           else 0 in
  map (fun i => start + Z.of_nat i * step) (seq 0 (Z.to_nat n)).

(** [str(n)] for a non-negative integer: its decimal digits. *)
Definition str_N (n : N) : string := NilEmpty.string_of_uint (N.to_uint n).

(** [sep.join(parts)]. *)
Definition join (sep : string) (parts : list string) : string :=
  String.concat sep parts.

Definition Zsum (l : list Z) : Z := fold_right Z.add 0 l.

(** ** The bit-array store *)

(** Modelled from the spec: the external bit-array store (section 6 of
    the specification; a Redis server in the original deployment) is not
    part of the repository.  A key holds a byte string; bit [0] is the
    most significant bit of byte [0]; reading past the end yields [0];
    negative bit and byte indices count from the end ([-1] is the last
    bit, respectively the last byte); a missing key reads as the empty
    string. *)
Abbreviation bitmap := (list N).

Definition strlen (bm : bitmap) : Z := Z.of_nat (length bm).

Definition byte_at (bm : bitmap) (i : Z) : N :=
  if i <? 0 then 0%N else nth (Z.to_nat i) bm 0%N.

(** Bit [i] (0..7, most significant first) of a byte. *)
Definition bit_of_byte (b : N) (i : Z) : Z :=
  Z.b2z (N.testbit b (7 - Z.to_N i)).

Definition popcount (b : N) : Z :=
  Zsum (map (bit_of_byte b) [0; 1; 2; 3; 4; 5; 6; 7]).

(** Modelled from the spec: [get_bit(key, index)] of the store, on the
    value of the key. *)
Definition getbit (bm : bitmap) (off : Z) : Z :=
  let pos := if off <? 0 then 8 * strlen bm + off else off in
  if pos <? 0 then 0
  else bit_of_byte (byte_at bm (pos / 8)) (pos mod 8).

(** [n] consecutive integers from [a]. *)
Definition Zrange (a : Z) (n : nat) : list Z :=
  map (fun i => a + Z.of_nat i) (seq 0 n).

(** Modelled from the spec: [bit_count(key)] of the store. *)
Definition bitcount_all (bm : bitmap) : Z := Zsum (map popcount bm).

(** Modelled from the spec: [bit_count(key, start_byte, end_byte)] of
    the store: inclusive byte indices, negative ones counted from the
    end, clamped to the string. *)
Definition bitcount_range (bm : bitmap) (start stop : Z) : Z :=
  let len := strlen bm in
  if (start <? 0) && (stop <? 0) && (stop <? start) then 0
  else
    let start := if start <? 0 then len + start else start in
    let stop := if stop <? 0 then len + stop else stop in
    let start := Z.max 0 start in
    let stop := Z.max 0 stop in
    let stop := if len <=? stop then len - 1 else stop in
    if stop <? start then 0
    else Zsum (map (fun i => popcount (byte_at bm i))
                   (Zrange start (Z.to_nat (stop - start + 1)))).

(** Apply [f] to byte [i], growing the string with zero bytes first. *)
Fixpoint update_byte (bm : bitmap) (i : nat) (f : N -> N) : bitmap :=
  match i, bm with
  | O, [] => [f 0%N]
  | O, b :: r => f b :: r
  | S j, [] => 0%N :: update_byte [] j f
  | S j, b :: r => b :: update_byte r j f
  end.

(** Modelled from the spec: [set_bit(key, index, value)] of the store,
    on the value of the key. *)
Definition setbit (bm : bitmap) (off : N) (v : bool) : bitmap :=
  let p := (7 - off mod 8)%N in
  update_byte bm (N.to_nat (off / 8))
              (fun b => if v then N.setbit b p else N.clearbit b p).

(** Modelled from the spec: [bitwise_op] of the store; operands are
    padded with zero bytes to the longest. *)
Inductive bitop_kind := OpAnd | OpOr | OpXor | OpNot.

Definition upper (c : ascii) : ascii :=
  let n := nat_of_ascii c in
  if ((97 <=? n) && (n <=? 122))%nat then ascii_of_nat (n - 32) else c.

Fixpoint upper_string (s : string) : string :=
  match s with
  | EmptyString => EmptyString
  | String c r => String (upper c) (upper_string r)
  end.

Definition parse_bitop (name : string) : option bitop_kind :=
  let u := upper_string name in
  if String.eqb u "AND" then Some OpAnd
  else if String.eqb u "OR" then Some OpOr
  else if String.eqb u "XOR" then Some OpXor
  else if String.eqb u "NOT" then Some OpNot
  else None.

Fixpoint zip_bytes (f : N -> N -> N) (a b : bitmap) : bitmap :=
  match a, b with
  | [], _ => map (f 0%N) b
  | _, [] => map (fun x => f x 0%N) a
  | x :: a', y :: b' => f x y :: zip_bytes f a' b'
  end.

(** Modelled from the spec: the result of [bitwise_op]; [None] when the
    store rejects the request (no source, or [NOT] with more than one
    source). *)
Definition bitop_result (k : bitop_kind) (srcs : list bitmap) : option bitmap :=
  match srcs with
  | [] => None
  | a :: rest =>
      match k with
      | OpAnd => Some (fold_left (zip_bytes N.land) rest a)
      | OpOr => Some (fold_left (zip_bytes N.lor) rest a)
      | OpXor => Some (fold_left (zip_bytes N.lxor) rest a)
      | OpNot => match rest with
                 | [] => Some (map (fun b => N.lxor b 255) a)
                 | _ :: _ => None
                 end
      end
  end.

(** The requests that change the store.  Read requests ([get_bit],
    [bit_count]) are functions of the store and are not recorded. *)
Inductive command :=
| MULTI
| EXEC
| SETBIT (key : string) (offset : N) (value : Z)
| EXPIRE (key : string) (ttl : Z)
| BITOP (op dest : string) (srcs : list string).

Definition value_of (s : gmap string bitmap) (key : string) : bitmap :=
  default [] (s !! key).

(** Modelled from the spec: the store's reaction to a request; [None]
    is an error reply, which leaves the store as it was.  Lifetimes are not part of the state
    (time does not pass between two requests); a non-positive lifetime
    removes the key at once. *)
Definition store_apply (cmd : command) (s : gmap string bitmap)
  : option (gmap string bitmap) :=
  match cmd with
  | MULTI | EXEC => Some s
  | SETBIT key off v =>
      if v =? 1 then Some (<[key := setbit (value_of s key) off true]> s)
      else if v =? 0 then Some (<[key := setbit (value_of s key) off false]> s)
      else None
  | EXPIRE key ttl =>
      if ttl <=? 0 then Some (delete key s) else Some s
  | BITOP op dest srcs =>
      match parse_bitop op with
      | None => None
      | Some k =>
          match bitop_result k (map (value_of s) srcs) with
          | None => None
          | Some [] => Some (delete dest s)
          | Some bm => Some (<[dest := bm]> s)
          end
      end
  end.

(** ** The store client *)

(** The client holds the store and the requests sent to it so far. *)
Record client := { db : gmap string bitmap; sent : list command }.

(** A call that may raise and may change the client. *)
Definition M (A : Type) : Type := client -> exc A * client.

(** Modelled from the spec: one request of the client library, sent at
    once; an error reply is raised. *)
Definition call (cmd : command) : M unit := fun c =>
  match store_apply cmd (db c) with
  | Some s => (Ok tt, {| db := s; sent := sent c ++ [cmd] |})
  | None => (Raise ResponseError, {| db := db c; sent := sent c ++ [cmd] |})
  end.

(** The store's state after a batch; a rejected request is skipped.
    The flag tells whether every request was accepted. *)
Fixpoint apply_batch (cmds : list command) (s : gmap string bitmap)
  : gmap string bitmap * bool :=
  match cmds with
  | [] => (s, true)
  | cmd :: rest =>
      match store_apply cmd s with
      | Some s' => apply_batch rest s'
      | None => let '(s', _) := apply_batch rest s in (s', false)
      end
  end.

(** Modelled from the spec: the batched mode of the client library,
    [p.multi(); ...; p.execute()]: the queued requests go out together;
    an empty queue sends nothing; the first error reply is raised after
    the batch has run. *)
Definition pipeline_execute (stack : list command) : M unit := fun c =>
  match stack with
  | [] => (Ok tt, c)
  | _ :: _ =>
      let '(s, ok) := apply_batch stack (db c) in
      let c' := {| db := s; sent := sent c ++ [MULTI] ++ stack ++ [EXEC] |} in
      (if ok then Ok tt else Raise ResponseError, c')
  end.

Definition cli_getbit (s : gmap string bitmap) (key : string) (off : Z) : Z :=
  getbit (value_of s key) off.

Definition cli_bitcount (s : gmap string bitmap) (key : string) : Z :=
  bitcount_all (value_of s key).

Definition cli_bitcount_range (s : gmap string bitmap) (key : string)
           (start stop : Z) : Z :=
  bitcount_range (value_of s key) start stop.

(** ** Keys and bitmap handles *)

(** The fields of a [datetime] that the code reads: [year], [month],
    [day], [hour] and the first two components of [isocalendar()]. *)
Record datetime := {
  year : N; month : N; day : N; hour : N;
  iso_year : N; iso_week : N
}.

(** [Bitmapist.__init__]: [temp_ttl or 60]. *)
Record Bitmapist := { prefix : string; divider : string; temp_ttl : Z }.

Definition Bitmapist_init (prefix divider : string) (temp_ttl : option Z)
  : Bitmapist :=
  {| prefix := prefix; divider := divider;
     temp_ttl := if truthy temp_ttl then default 60 temp_ttl else 60 |}.

(** [Bitmap]: a handle is its key (the client is threaded separately). *)
Record Bitmap := { redis_key : string }.

(** A string is true when it is not empty. *)
Definition truthy_str (s : option string) : bool :=
  match s with
  | None | Some EmptyString => false
  | Some (String _ _) => true
  end.

Definition _prefix_key (event_name prefix divider : string)
           (date : option string) : string :=
  if truthy_str date
  then join divider [prefix; "ev"; event_name; default "" date]
  else join divider [prefix; "at"; event_name].

Definition MonthEvents (event_name : string) (year month : N)
           (prefix divider : string) : Bitmap :=
  {| redis_key := _prefix_key event_name prefix divider
                    (Some (str_N year +:+ "-" +:+ str_N month)) |}.

Definition WeekEvents (event_name : string) (year week : N)
           (prefix divider : string) : Bitmap :=
  {| redis_key := _prefix_key event_name prefix divider
                    (Some ("W" +:+ str_N year +:+ "-" +:+ str_N week)) |}.

Definition DayEvents (event_name : string) (year month day : N)
           (prefix divider : string) : Bitmap :=
  {| redis_key := _prefix_key event_name prefix divider
                    (Some (str_N year +:+ "-" +:+ str_N month +:+ "-"
                           +:+ str_N day)) |}.

Definition HourEvents (event_name : string) (year month day hour : N)
           (prefix divider : string) : Bitmap :=
  {| redis_key := _prefix_key event_name prefix divider
                    (Some (str_N year +:+ "-" +:+ str_N month +:+ "-"
                           +:+ str_N day +:+ "-" +:+ str_N hour)) |}.

Definition Attributes (attribute_name prefix divider : string) : Bitmap :=
  {| redis_key := _prefix_key attribute_name prefix divider None |}.

Definition get_month_event (self : Bitmapist) (event_name : string)
           (now : datetime) : Bitmap :=
  MonthEvents event_name (year now) (month now) (prefix self) (divider self).

Definition get_week_event (self : Bitmapist) (event_name : string)
           (now : datetime) : Bitmap :=
  WeekEvents event_name (iso_year now) (iso_week now)
             (prefix self) (divider self).

Definition get_day_event (self : Bitmapist) (event_name : string)
           (now : datetime) : Bitmap :=
  DayEvents event_name (year now) (month now) (day now)
            (prefix self) (divider self).

Definition get_hour_event (self : Bitmapist) (event_name : string)
           (now : datetime) : Bitmap :=
  HourEvents event_name (year now) (month now) (day now) (hour now)
             (prefix self) (divider self).

Definition get_attribute (self : Bitmapist) (attribute_name : string)
  : Bitmap :=
  Attributes attribute_name (prefix self) (divider self).

(** ** Marking *)

(** The requests queued for one [(handle, ttl)] pair of [mark_event]. *)
Definition mark_requests (uuid : N) (stat : Bitmap * option Z)
  : list command :=
  let '(obj, ttl) := stat in
  SETBIT (redis_key obj) uuid 1 ::
  match ttl with
  | Some t => [EXPIRE (redis_key obj) t]
  | None => []
  end.

(** [Bitmapist.mark_event]; [utcnow] is the clock read when [now] is
    not given. *)
Definition mark_event (self : Bitmapist) (utcnow : datetime)
           (event_name : string) (uuid : N) (now : option datetime)
           (month week day hour : bool)
           (month_ttl week_ttl day_ttl hour_ttl : option Z) : M unit :=
  let now := match now with Some t => t | None => utcnow end in
  let stat_objs :=
    (if month then [(get_month_event self event_name now, month_ttl)] else [])
    ++ (if week then [(get_week_event self event_name now, week_ttl)] else [])
    ++ (if day then [(get_day_event self event_name now, day_ttl)] else [])
    ++ (if hour then [(get_hour_event self event_name now, hour_ttl)] else [])
  in
  pipeline_execute (flat_map (mark_requests uuid) stat_objs).

Definition valid_mark (mark_as : Z) : bool := (mark_as =? 0) || (mark_as =? 1).

(** [Bitmapist.mark_attribute_multi]. *)
Definition mark_attribute_multi (self : Bitmapist) (attribute_name : string)
           (uuids : list N) (mark_as : Z) : M unit := fun c =>
  if negb (valid_mark mark_as) then (Raise ValueError, c)
  else
    let obj := get_attribute self attribute_name in
    pipeline_execute
      (map (fun _id => SETBIT (redis_key obj) _id mark_as) uuids) c.

(** The [uuid] argument of [mark_attribute]: one identity or a list. *)
Inductive uuid_arg := One (uuid : N) | Many (uuids : list N).

(** [Bitmapist.mark_attribute]. *)
Definition mark_attribute (self : Bitmapist) (attribute_name : string)
           (uuid : uuid_arg) (mark_as : Z) : M unit := fun c =>
  if negb (valid_mark mark_as) then (Raise ValueError, c)
  else
    match uuid with
    | Many l => mark_attribute_multi self attribute_name l mark_as c
    | One u =>
        let obj := get_attribute self attribute_name in
        call (SETBIT (redis_key obj) u mark_as) c
    end.

(** A per-bucket lifetime that does not end at once: absent, or a
    positive number of seconds. *)
Definition lasting (ttl : option Z) : Prop :=
  match ttl with
  | Some t => 0 < t
  | None => True
  end.

(** ** Counting and membership *)

(** The sentinel [MixinCounts.ERROR] or a byte index. *)
Inductive byte_index := ERROR | Idx (z : Z).

Definition _convert_to_start_byte (bit : option Z) : exc byte_index :=
  if py_le (Some (-7)) bit && py_lt bit (Some 0) then Ok ERROR
  else do x <- py_add bit 7; Ok (Idx (x / 8)).

Definition _convert_to_end_byte (bit : option Z) : exc byte_index :=
  if py_lt bit (Some 0) then do x <- py_add bit 1; Ok (Idx (x / 8 - 1))
  else if py_lt bit (Some 7) then Ok ERROR
  else do x <- py_add bit (-7); Ok (Idx (x / 8)).

(** [for offset in offsets: total_bits += cli.getbit(key, offset)]. *)
Definition add_bits (s : gmap string bitmap) (key : string)
           (offsets : list Z) (total_bits : Z) : Z :=
  fold_left (fun t offset => t + cli_getbit s key offset) offsets total_bits.

(** [MixinCounts.get_count]. *)
Definition get_count (s : gmap string bitmap) (self : Bitmap)
           (start_bit end_bit : option Z) : exc Z :=
  let key := redis_key self in
  if negb (truthy start_bit) && negb (truthy end_bit)
  then Ok (cli_bitcount s key)
  else
    do start_byte <- _convert_to_start_byte start_bit;
    do end_byte <- _convert_to_end_byte end_bit;
    let total_bits := 0 in
    match start_byte, end_byte with
    | Idx start_byte, Idx end_byte =>
        do start <- py_int start_bit;
        let bit_floor := start_byte * 8 in
        let total_bits :=
          add_bits s key
            (xrange start bit_floor (if start >=? 0 then 1 else -1))
            total_bits in
        let total_bits :=
          total_bits + cli_bitcount_range s key start_byte end_byte in
        let bit_ceiling := (end_byte + 1) * 8 in
        do stop <- py_add end_bit 1;
        let total_bits :=
          add_bits s key
            (xrange bit_ceiling stop (if bit_ceiling >=? 0 then 1 else -1))
            total_bits in
        Ok total_bits
    | _, _ =>
        do start <- py_int start_bit;
        do stop <- py_add end_bit 1;
        Ok (add_bits s key (xrange start stop 1) total_bits)
    end.

(** [MixinCounts.__len__]. *)
Definition len (s : gmap string bitmap) (self : Bitmap) : exc Z :=
  get_count s self None None.

(** [MixinContains.__contains__]. *)
Definition contains (s : gmap string bitmap) (self : Bitmap) (uuid : N)
  : bool :=
  negb (cli_getbit s (redis_key self) (Z.of_N uuid) =? 0).

(** The slow reference of the specification: the sum of [get_bit] over
    every index of [[start, end]], one at a time. *)
Definition slow_count (s : gmap string bitmap) (self : Bitmap)
           (start_bit end_bit : Z) : Z :=
  Zsum (map (cli_getbit s (redis_key self))
            (Zrange start_bit (Z.to_nat (end_bit + 1 - start_bit)))).

(** ** Bit operations *)

(** The key of a derived bitmap, as [BitOperation.__init__] builds it. *)
Definition bitop_key (op_name prefix divider : string)
           (event_redis_keys : list string) : string :=
  join divider [prefix; "bitop"; op_name; join "-" event_redis_keys].

(** [BitOperation.__init__]: the handle exists once both requests went
    through. *)
Definition BitOperation_init (op_name prefix divider : string) (ttl : Z)
           (events : list Bitmap) : M Bitmap := fun c =>
  let event_redis_keys := map redis_key events in
  let self := {| redis_key := bitop_key op_name prefix divider
                                event_redis_keys |} in
  match call (BITOP op_name (redis_key self) event_redis_keys) c with
  | (Raise e, c1) => (Raise e, c1)
  | (Ok _, c1) =>
      match call (EXPIRE (redis_key self) ttl) c1 with
      | (Raise e, c2) => (Raise e, c2)
      | (Ok _, c2) => (Ok self, c2)
      end
  end.

Definition BitOpAnd (prefix divider : string) (ttl : Z)
           (events : list Bitmap) : M Bitmap :=
  BitOperation_init "AND" prefix divider ttl events.

Definition BitOpNot (prefix divider : string) (ttl : Z) (event : Bitmap)
  : M Bitmap :=
  BitOperation_init "Not" prefix divider ttl [event].

Definition BitOpOr (prefix divider : string) (ttl : Z)
           (events : list Bitmap) : M Bitmap :=
  BitOperation_init "OR" prefix divider ttl events.

Definition BitOpXor (prefix divider : string) (ttl : Z)
           (events : list Bitmap) : M Bitmap :=
  BitOperation_init "XOR" prefix divider ttl events.

Definition bit_op_and (self : Bitmapist) (bitmaps : list Bitmap) : M Bitmap :=
  BitOpAnd (prefix self) (divider self) (temp_ttl self) bitmaps.

Definition bit_op_or (self : Bitmapist) (bitmaps : list Bitmap) : M Bitmap :=
  BitOpOr (prefix self) (divider self) (temp_ttl self) bitmaps.

Definition bit_op_xor (self : Bitmapist) (bitmaps : list Bitmap) : M Bitmap :=
  BitOpXor (prefix self) (divider self) (temp_ttl self) bitmaps.

Definition bit_op_not (self : Bitmapist) (bitmap : Bitmap) : M Bitmap :=
  BitOpNot (prefix self) (divider self) (temp_ttl self) bitmap.

(** A call [bm.bit_op_not(a, b, ...)]: the method takes exactly one bitmap,
    so any other number of arguments raises [TypeError] when the call
    is bound, before the body runs. *)
Definition call_bit_op_not (self : Bitmapist) (args : list Bitmap)
  : M Bitmap := fun c =>
  match args with
  | [bitmap] => bit_op_not self bitmap c
  | _ => (Raise TypeError, c)
  end.

(** The composition entry points by operation. *)
Inductive composition := AND | OR | XOR | NOT.

Definition compose (self : Bitmapist) (op : composition)
           (operands : list Bitmap) : M Bitmap :=
  match op with
  | AND => bit_op_and self operands
  | OR => bit_op_or self operands
  | XOR => bit_op_xor self operands
  | NOT => call_bit_op_not self operands
  end.

(** ** Characters of keys *)

(** The period tokens, as the event classes format them. *)
Definition month_token (t : datetime) : string :=
  str_N (year t) +:+ "-" +:+ str_N (month t).

Definition week_token (t : datetime) : string :=
  "W" +:+ str_N (iso_year t) +:+ "-" +:+ str_N (iso_week t).

Definition day_token (t : datetime) : string :=
  str_N (year t) +:+ "-" +:+ str_N (month t) +:+ "-" +:+ str_N (day t).

Definition hour_token (t : datetime) : string :=
  str_N (year t) +:+ "-" +:+ str_N (month t) +:+ "-" +:+ str_N (day t)
  +:+ "-" +:+ str_N (hour t).

(** The key templates of the specification (section 6). *)
Definition ev_template (prefix divider name token : string) : string :=
  prefix +:+ divider +:+ "ev" +:+ divider +:+ name +:+ divider +:+ token.

Definition at_template (prefix divider name : string) : string :=
  prefix +:+ divider +:+ "at" +:+ divider +:+ name.

Definition bitop_template (prefix divider op joined : string) : string :=
  prefix +:+ divider +:+ "bitop" +:+ divider +:+ op +:+ divider +:+ joined.

(** The operation name each composition passes to the store. *)
Definition op_name (op : composition) : string :=
  match op with
  | AND => "AND"
  | OR => "OR"
  | XOR => "XOR"
  | NOT => "Not"
  end.

Fixpoint occurs (c : ascii) (s : string) : bool :=
  match s with
  | EmptyString => false
  | String x r => Ascii.eqb x c || occurs c r
  end.

Fixpoint all_chars (p : ascii -> bool) (s : string) : bool :=
  match s with
  | EmptyString => true
  | String x r => p x && all_chars p r
  end.

Definition is_digit (c : ascii) : bool :=
  let n := nat_of_ascii c in ((48 <=? n) && (n <=? 57))%nat.

(** The characters period tokens are made of: digits, ["-"] and ["W"]. *)
Definition token_char (c : ascii) : bool :=
  is_digit c || Ascii.eqb c "-" || Ascii.eqb c "W".

(** ** Key presence and selected buckets *)

(** [MixinMarked.has_events_marked]: [cli.get(key) != None]. *)
Definition has_events_marked (s : gmap string bitmap) (self : Bitmap) : bool :=
  match s !! redis_key self with
  | Some _ => true
  | None => false
  end.

(** The handles [mark_event] writes to, by the selected granularities. *)
Definition selected_keys (self : Bitmapist) (name : string) (t : datetime)
           (month week day hour : bool) : list string :=
  (if month then [redis_key (get_month_event self name t)] else [])
  ++ (if week then [redis_key (get_week_event self name t)] else [])
  ++ (if day then [redis_key (get_day_event self name t)] else [])
  ++ (if hour then [redis_key (get_hour_event self name t)] else []).

(** ** Sample data *)

(** The default configuration and an empty store. *)
Definition bm_default : Bitmapist := Bitmapist_init "trackist" ":" None.
Definition fresh : client := {| db := ∅; sent := [] |}.

Definition handle (key : string) : Bitmap := {| redis_key := key |}.

(** A store with one key holding the given bytes. *)
Definition single (key : string) (bm : bitmap) : gmap string bitmap :=
  <[key := bm]> ∅.

(** The attribute bitmap of the test suite: identities 123..143 marked. *)
Definition paid_users : client :=
  snd (mark_attribute_multi bm_default "paid_user"
         (map N.of_nat (seq 123 21)) 1 fresh).

(** * Properties *)

(** ** Sums of bit lookups *)

Lemma Zsum_app (l1 l2 : list Z) : Zsum (l1 ++ l2) = Zsum l1 + Zsum l2.
Proof. induction l1 as [|x l1 IH]; simpl; [reflexivity | rewrite IH; lia]. Qed.

Lemma Zrange_succ (a : Z) (n : nat) : Zrange a (S n) = a :: Zrange (a + 1) n.
Proof.
  unfold Zrange. simpl. f_equal; [lia |].
  rewrite <- seq_shift, map_map. apply map_ext. intros i. lia.
Qed.

Lemma Zrange_app (a : Z) (n m : nat) :
  Zrange a (n + m) = Zrange a n ++ Zrange (a + Z.of_nat n) m.
Proof.
  revert a. induction n as [|n IH]; intros a.
  - simpl. f_equal. lia.
  - change (S n + m)%nat with (S (n + m)). rewrite !Zrange_succ, IH. simpl.
    do 3 f_equal. lia.
Qed.




Lemma div8_unique (k i : Z) :
  0 <= i < 8 -> (8 * k + i) / 8 = k /\ (8 * k + i) mod 8 = i.
Proof.
  intros H. split.
  - symmetry. apply (Z.div_unique _ _ _ i); lia.
  - symmetry. apply (Z.mod_unique _ _ k i); lia.
Qed.

Section Bytes.

Variable bm : bitmap.

Lemma getbit_at (k i : Z) :
  0 <= k -> 0 <= i < 8 -> getbit bm (8 * k + i) = bit_of_byte (byte_at bm k) i.
Proof.
  intros Hk Hi. unfold getbit.
  destruct (Z.ltb_spec (8 * k + i) 0) as [?|_]; [lia |].
  destruct (Z.ltb_spec (8 * k + i) 0) as [?|_]; [lia |].
  destruct (div8_unique k i Hi) as [-> ->]. reflexivity.
Qed.

Lemma bits_of_one_byte (k : Z) :
  0 <= k -> Zsum (map (getbit bm) (Zrange (8 * k) 8)) = popcount (byte_at bm k).
Proof.
  intros Hk.
  change (Zrange (8 * k) 8)
    with [8 * k + 0; 8 * k + 1; 8 * k + 2; 8 * k + 3;
          8 * k + 4; 8 * k + 5; 8 * k + 6; 8 * k + 7].
  unfold popcount. cbn [map Zsum fold_right].
  rewrite !getbit_at by lia. reflexivity.
Qed.

Lemma bits_of_bytes (a : Z) (n : nat) :
  0 <= a ->
  Zsum (map (getbit bm) (Zrange (8 * a) (8 * n))) =
  Zsum (map (fun i => popcount (byte_at bm i)) (Zrange a n)).
Proof.
  revert a. induction n as [|n IH]; intros a Ha.
  - reflexivity.
  - replace (8 * S n)%nat with (8 + 8 * n)%nat by lia.
    rewrite Zrange_app, map_app, Zsum_app, bits_of_one_byte by lia.
    rewrite Zrange_succ. cbn [map Zsum fold_right]. f_equal.
    replace (8 * a + Z.of_nat 8) with (8 * (a + 1)) by lia.
    apply IH. lia.
Qed.

Lemma byte_at_beyond (i : Z) : strlen bm <= i -> byte_at bm i = 0%N.
Proof.
  intros H. unfold byte_at, strlen in *.
  destruct (i <? 0); [reflexivity |]. apply nth_overflow. lia.
Qed.




End Bytes.

(** ** Byte-boundary conversion *)

Lemma start_byte_int (z : Z) :
  _convert_to_start_byte (Some z) =
  Ok (if (-7 <=? z) && (z <? 0) then ERROR else Idx ((z + 7) / 8)).
Proof.
  unfold _convert_to_start_byte. cbn [py_le py_lt py_add exc_bind].
  destruct ((-7 <=? z) && (z <? 0)); reflexivity.
Qed.

Lemma end_byte_int (z : Z) :
  _convert_to_end_byte (Some z) =
  Ok (if z <? 0 then Idx ((z + 1) / 8 - 1)
      else if z <? 7 then ERROR else Idx ((z - 7) / 8)).
Proof.
  unfold _convert_to_end_byte. cbn [py_lt py_add exc_bind].
  destruct (z <? 0); [reflexivity |]. destruct (z <? 7); reflexivity.
Qed.

(** C2: the start-byte conversion yields the sentinel exactly for
    [-7 <= start < 0] and otherwise the floor of [(start + 7) / 8], the
    integer [q] with [8 q <= start + 7 < 8 q + 8]; the five literal cases
    of the specification hold. *)
Theorem start_byte_conversion :
  (forall start : Z,
      (-7 <= start < 0 -> _convert_to_start_byte (Some start) = Ok ERROR) /\
      (~ (-7 <= start < 0) ->
       exists q, _convert_to_start_byte (Some start) = Ok (Idx q) /\
                 q = (start + 7) / 8 /\ 8 * q <= start + 7 < 8 * q + 8)) /\
  _convert_to_start_byte (Some (-16)) = Ok (Idx (-2)) /\
  _convert_to_start_byte (Some (-8)) = Ok (Idx (-1)) /\
  _convert_to_start_byte (Some (-7)) = Ok ERROR /\
  _convert_to_start_byte (Some 0) = Ok (Idx 0) /\
  _convert_to_start_byte (Some 9) = Ok (Idx 2).
Proof.
  split; [| repeat split; reflexivity].
  intros start. rewrite start_byte_int. split.
  - intros [H1 H2].
    destruct (Z.leb_spec (-7) start); [| lia].
    destruct (Z.ltb_spec start 0); [| lia]. reflexivity.
  - intros H. exists ((start + 7) / 8). split; [| split; [reflexivity |]].
    + destruct (Z.leb_spec (-7) start); destruct (Z.ltb_spec start 0);
        cbn [andb]; try reflexivity; lia.
    + Z.div_mod_to_equations; lia.
Qed.

Lemma start_byte_conversion_witness :
  _convert_to_start_byte (Some (-3)) = Ok ERROR /\
  exists q, _convert_to_start_byte (Some 122) = Ok (Idx q) /\
            q = (122 + 7) / 8 /\ 8 * q <= 122 + 7 < 8 * q + 8.
Proof.
  split.
  - apply (proj1 (proj1 start_byte_conversion (-3))). lia.
  - apply (proj2 (proj1 start_byte_conversion 122)). lia.
Defined.

(** C3: the end-byte conversion yields [floor((end + 1) / 8) - 1] for a
    negative [end], the sentinel for [0 <= end < 7] and
    [floor((end - 7) / 8)] otherwise; the five literal cases of the
    specification hold. *)
Theorem end_byte_conversion :
  (forall stop : Z,
      (stop < 0 ->
       exists q, _convert_to_end_byte (Some stop) = Ok (Idx (q - 1)) /\
                 q = (stop + 1) / 8 /\ 8 * q <= stop + 1 < 8 * q + 8) /\
      (0 <= stop < 7 -> _convert_to_end_byte (Some stop) = Ok ERROR) /\
      (7 <= stop ->
       exists q, _convert_to_end_byte (Some stop) = Ok (Idx q) /\
                 q = (stop - 7) / 8 /\ 8 * q <= stop - 7 < 8 * q + 8)) /\
  _convert_to_end_byte (Some (-9)) = Ok (Idx (-2)) /\
  _convert_to_end_byte (Some (-1)) = Ok (Idx (-1)) /\
  _convert_to_end_byte (Some 6) = Ok ERROR /\
  _convert_to_end_byte (Some 7) = Ok (Idx 0) /\
  _convert_to_end_byte (Some 127) = Ok (Idx 15).
Proof.
  split; [| repeat split; reflexivity].
  intros stop. rewrite end_byte_int. repeat split.
  - intros H. exists ((stop + 1) / 8).
    destruct (Z.ltb_spec stop 0); [| lia].
    repeat split; Z.div_mod_to_equations; lia.
  - intros H.
    destruct (Z.ltb_spec stop 0); [lia |].
    destruct (Z.ltb_spec stop 7); [reflexivity | lia].
  - intros H. exists ((stop - 7) / 8).
    destruct (Z.ltb_spec stop 0); [lia |].
    destruct (Z.ltb_spec stop 7); [lia |].
    repeat split; Z.div_mod_to_equations; lia.
Qed.

Lemma end_byte_conversion_witness :
  (exists q, _convert_to_end_byte (Some (-10)) = Ok (Idx (q - 1)) /\
             q = (-10 + 1) / 8 /\ 8 * q <= -10 + 1 < 8 * q + 8) /\
  _convert_to_end_byte (Some 0) = Ok ERROR /\
  (exists q, _convert_to_end_byte (Some 122) = Ok (Idx q) /\
             q = (122 - 7) / 8 /\ 8 * q <= 122 - 7 < 8 * q + 8).
Proof.
  split; [| split].
  - apply (proj1 (proj1 end_byte_conversion (-10))). lia.
  - apply (proj1 (proj2 (proj1 end_byte_conversion 0))). lia.
  - apply (proj2 (proj2 (proj1 end_byte_conversion 122))). lia.
Defined.

(** ** Counting *)




Lemma get_count_falsy (s : gmap string bitmap) (self : Bitmap)
      (start_bit end_bit : option Z) :
  truthy start_bit = false -> truthy end_bit = false ->
  get_count s self start_bit end_bit = Ok (cli_bitcount s (redis_key self)).
Proof. intros H1 H2. unfold get_count. rewrite H1, H2. reflexivity. Qed.

(** C10: a bound that is zero is treated like an omitted bound: when
    each bound is omitted or zero, [get_count] returns the population
    count of the whole bitmap, which for [get_count(0, 0)] can differ
    from the count over the one-bit range [[0, 0]]. *)
Theorem get_count_zero_bounds_count_everything :
  (forall (s : gmap string bitmap) (self : Bitmap) (start_bit end_bit : option Z),
      start_bit = None \/ start_bit = Some 0 ->
      end_bit = None \/ end_bit = Some 0 ->
      get_count s self start_bit end_bit = Ok (cli_bitcount s (redis_key self))) /\
  (exists (s : gmap string bitmap) (self : Bitmap),
      get_count s self (Some 0) (Some 0) = Ok 21 /\
      slow_count s self 0 0 = 0).
Proof.
  split.
  - intros s self start_bit end_bit [-> | ->] [-> | ->];
      apply get_count_falsy; reflexivity.
  - exists (db paid_users), (get_attribute bm_default "paid_user").
    split; vm_compute; reflexivity.
Qed.

Lemma get_count_zero_bounds_witness :
  get_count (db paid_users) (get_attribute bm_default "paid_user")
            (Some 0) (Some 0) = Ok 21 /\
  get_count (db paid_users) (get_attribute bm_default "paid_user")
            None (Some 0) = Ok 21.
Proof.
  split.
  - rewrite (proj1 get_count_zero_bounds_count_everything
               (db paid_users) (get_attribute bm_default "paid_user")
               (Some 0) (Some 0)
               (or_intror eq_refl) (or_intror eq_refl)).
    vm_compute. reflexivity.
  - rewrite (proj1 get_count_zero_bounds_count_everything
               (db paid_users) (get_attribute bm_default "paid_user")
               None (Some 0)
               (or_introl eq_refl) (or_intror eq_refl)).
    vm_compute. reflexivity.
Defined.

(** C5 as stated fails: with the start bound omitted and the end bound
    [10], the call raises instead of returning the whole-bitmap count. *)
Lemma get_count_one_bound_omitted_raises :
  ~ (forall (s : gmap string bitmap) (self : Bitmap) (start_bit end_bit : option Z),
        start_bit = None \/ end_bit = None ->
        get_count s self start_bit end_bit = Ok (cli_bitcount s (redis_key self))).
Proof.
  intros H.
  specialize (H (single "k" [0; 32]%N) (handle "k") None (Some 10)
                (or_introl eq_refl)).
  vm_compute in H. discriminate H.
Qed.

(** C5, amended: with both bounds omitted [get_count] returns the
    whole-bitmap population count and never fails; with exactly one
    bound omitted and the other a non-zero integer the call is not
    served: the byte conversion of the omitted bound raises
    [TypeError]. *)
Theorem get_count_omitted_bounds :
  (forall (s : gmap string bitmap) (self : Bitmap),
      get_count s self None None = Ok (cli_bitcount s (redis_key self))) /\
  (forall (s : gmap string bitmap) (self : Bitmap) (n : Z),
      n <> 0 ->
      get_count s self None (Some n) = Raise TypeError /\
      get_count s self (Some n) None = Raise TypeError).
Proof.
  split; [reflexivity |].
  intros s self n Hn. unfold get_count. cbn [truthy].
  destruct (Z.eqb_spec n 0) as [?|_]; [lia |]. cbn [negb andb].
  split; [reflexivity |].
  rewrite start_byte_int. cbn [exc_bind].
  destruct ((-7 <=? n) && (n <? 0)); reflexivity.
Qed.

Lemma get_count_omitted_bounds_witness :
  get_count (db paid_users) (handle "k") None (Some 5) = Raise TypeError /\
  get_count (db paid_users) (handle "k") (Some 5) None = Raise TypeError.
Proof.
  apply (proj2 get_count_omitted_bounds (db paid_users) (handle "k") 5). lia.
Defined.




(** C1: the split algorithm against the slow reference at two inputs
    with non-negative [start <= end].  With only bit 10 set,
    [get_count(9, 14)] returns 2 where the reference counts 1 (byte 1 is
    counted by both per-bit loops); with identities 123..143 marked,
    [get_count(0, 0)] returns 21 where the reference counts 0. *)
Theorem get_count_differs_from_slow_count :
  (get_count (single "k" [0; 32]%N) (handle "k") (Some 9) (Some 14) = Ok 2 /\
   slow_count (single "k" [0; 32]%N) (handle "k") 9 14 = 1) /\
  (get_count (db paid_users) (get_attribute bm_default "paid_user")
             (Some 0) (Some 0) = Ok 21 /\
   slow_count (db paid_users) (get_attribute bm_default "paid_user") 0 0 = 0).
Proof. repeat split; vm_compute; reflexivity. Qed.

(** C4: the regions of [get_count(-15, -1)] on a bitmap of two [0xFF]
    bytes.  Both conversions yield byte index [-1]; the leading region
    [[-15, -8)] holds 7 set bits and the aligned interior 8, but the
    reversed leading loop [xrange(-15, -8, -1)] visits no offset, and
    the call returns 8. *)
Theorem get_count_skips_negative_leading_region :
  let s := single "k" [255; 255]%N in
  _convert_to_start_byte (Some (-15)) = Ok (Idx (-1)) /\
  _convert_to_end_byte (Some (-1)) = Ok (Idx (-1)) /\
  xrange (-15) (-1 * 8) (-1) = [] /\
  Zsum (map (cli_getbit s "k") (Zrange (-15) 7)) = 7 /\
  cli_bitcount_range s "k" (-1) (-1) = 8 /\
  get_count s (handle "k") (Some (-15)) (Some (-1)) = Ok 8.
Proof. repeat split; vm_compute; reflexivity. Qed.

(** ** Strings and keys *)

Lemma occurs_app (c : ascii) (a b : string) :
  occurs c (a +:+ b) = occurs c a || occurs c b.
Proof.
  induction a as [|x a IH]; simpl; [reflexivity |].
  rewrite IH. apply orb_assoc.
Qed.

Lemma all_chars_app (p : ascii -> bool) (a b : string) :
  all_chars p (a +:+ b) = all_chars p a && all_chars p b.
Proof.
  induction a as [|x a IH]; simpl; [reflexivity |].
  rewrite IH. apply andb_assoc.
Qed.

Lemma all_chars_occurs (p : ascii -> bool) (c : ascii) (s : string) :
  all_chars p s = true -> p c = false -> occurs c s = false.
Proof.
  intros Hs Hc. induction s as [|x s IH]; [reflexivity |].
  cbn [all_chars occurs] in *. apply andb_true_iff in Hs as [Hx Hs].
  rewrite (IH Hs), orb_false_r.
  destruct (Ascii.eqb_spec x c) as [->|_]; [congruence | reflexivity].
Qed.

Lemma all_chars_weaken (p q : ascii -> bool) (s : string) :
  (forall c, p c = true -> q c = true) ->
  all_chars p s = true -> all_chars q s = true.
Proof.
  intros Hpq. induction s as [|x s IH]; [reflexivity |].
  cbn [all_chars]. intros [Hx Hs]%andb_true_iff.
  rewrite (Hpq _ Hx), (IH Hs). reflexivity.
Qed.

Lemma string_of_uint_digits (d : uint) :
  all_chars is_digit (NilEmpty.string_of_uint d) = true.
Proof. induction d; cbn [NilEmpty.string_of_uint all_chars]; auto. Qed.

Lemma str_N_digits (n : N) : all_chars is_digit (str_N n) = true.
Proof. apply string_of_uint_digits. Qed.

Lemma str_N_inj (a b : N) : str_N a = str_N b -> a = b.
Proof.
  unfold str_N. intros H. apply DecimalN.Unsigned.to_uint_inj.
  assert (E : Some (N.to_uint a) = Some (N.to_uint b))
    by (rewrite <- !NilEmpty.usu, H; reflexivity).
  congruence.
Qed.

Lemma str_N_no_dash (n : N) : occurs "-" (str_N n) = false.
Proof. apply (all_chars_occurs is_digit); [apply str_N_digits | reflexivity]. Qed.

(** Two strings cut at the first occurrence of [c]. *)
Lemma split_at_first (c : ascii) (a a' r r' : string) :
  occurs c a = false -> occurs c a' = false ->
  a +:+ String c r = a' +:+ String c r' -> a = a' /\ r = r'.
Proof.
  revert a'. induction a as [|x a IH]; intros [|x' a'] Ha Ha' E;
    cbn [String.append occurs] in *.
  - injection E as ->. auto.
  - injection E as -> _. rewrite Ascii.eqb_refl in Ha'. discriminate.
  - injection E as -> _. rewrite Ascii.eqb_refl in Ha. discriminate.
  - injection E as -> E. apply orb_false_iff in Ha as [_ Ha].
    apply orb_false_iff in Ha' as [_ Ha'].
    destruct (IH a' Ha Ha' E) as [-> ->]. auto.
Qed.

(** Two strings cut at the last occurrence of [c]. *)
Lemma split_at_last (c : ascii) (a a' r r' : string) :
  occurs c r = false -> occurs c r' = false ->
  a +:+ String c r = a' +:+ String c r' -> a = a' /\ r = r'.
Proof.
  intros Hr Hr'. revert a'. induction a as [|x a IH]; intros [|x' a'] E;
    cbn [String.append] in *.
  - injection E as ->. auto.
  - injection E as _ ->. rewrite occurs_app in Hr. cbn [occurs] in Hr.
    rewrite Ascii.eqb_refl, orb_true_r in Hr. discriminate.
  - injection E as _ <-. rewrite occurs_app in Hr'. cbn [occurs] in Hr'.
    rewrite Ascii.eqb_refl, orb_true_r in Hr'. discriminate.
  - injection E as -> E. destruct (IH a' E) as [-> ->]. auto.
Qed.

Lemma event_key (name prefix divider tok : string) :
  tok <> "" ->
  _prefix_key name prefix divider (Some tok) = ev_template prefix divider name tok.
Proof. destruct tok; [congruence | reflexivity]. Qed.

Lemma month_key (self : Bitmapist) (name : string) (t : datetime) :
  redis_key (get_month_event self name t)
  = ev_template (prefix self) (divider self) name (month_token t).
Proof.
  apply event_key. unfold month_token. destruct (str_N (year t)); discriminate.
Qed.

Lemma week_key (self : Bitmapist) (name : string) (t : datetime) :
  redis_key (get_week_event self name t)
  = ev_template (prefix self) (divider self) name (week_token t).
Proof. apply event_key. discriminate. Qed.

Lemma day_key (self : Bitmapist) (name : string) (t : datetime) :
  redis_key (get_day_event self name t)
  = ev_template (prefix self) (divider self) name (day_token t).
Proof.
  apply event_key. unfold day_token. destruct (str_N (year t)); discriminate.
Qed.

Lemma hour_key (self : Bitmapist) (name : string) (t : datetime) :
  redis_key (get_hour_event self name t)
  = ev_template (prefix self) (divider self) name (hour_token t).
Proof.
  apply event_key. unfold hour_token. destruct (str_N (year t)); discriminate.
Qed.

(** Keys of one event name differ exactly when their tokens do. *)
Lemma ev_template_token (prefix divider name tok tok' : string) :
  ev_template prefix divider name tok = ev_template prefix divider name tok' ->
  tok = tok'.
Proof.
  unfold ev_template. intros E.
  repeat (apply (inj (String.app _)) in E). exact E.
Qed.

(** [n-rest = n'-rest'] splits at the first dash. *)
Lemma split_number (n n' : N) (r r' : string) :
  str_N n +:+ "-" +:+ r = str_N n' +:+ "-" +:+ r' -> n = n' /\ r = r'.
Proof.
  intros E. apply (split_at_first "-") in E; auto using str_N_no_dash.
  destruct E as [E ->]. split; [apply str_N_inj, E | reflexivity].
Qed.

Lemma number_has_no_dash (n n' : N) (r : string) :
  str_N n <> str_N n' +:+ "-" +:+ r.
Proof.
  intros E. apply (f_equal (occurs "-")) in E.
  rewrite occurs_app, !str_N_no_dash in E. discriminate.
Qed.

Lemma number_not_W (n : N) (x r : string) :
  String "W" x <> str_N n +:+ "-" +:+ r.
Proof.
  intros E. pose proof (str_N_digits n) as Hd.
  destruct (str_N n) as [|c s]; simpl in E, Hd.
  - discriminate.
  - injection E as <- _. discriminate.
Qed.

Lemma month_token_inj (t t' : datetime) :
  month_token t = month_token t' -> year t = year t' /\ month t = month t'.
Proof.
  unfold month_token. intros [-> E]%split_number. auto using str_N_inj.
Qed.

Lemma week_token_inj (t t' : datetime) :
  week_token t = week_token t' ->
  iso_year t = iso_year t' /\ iso_week t = iso_week t'.
Proof.
  unfold week_token. intros E. injection E as E.
  apply split_number in E as [-> E]. auto using str_N_inj.
Qed.

Lemma day_token_inj (t t' : datetime) :
  day_token t = day_token t' ->
  year t = year t' /\ month t = month t' /\ day t = day t'.
Proof.
  unfold day_token. intros [-> [-> E]%split_number]%split_number.
  auto using str_N_inj.
Qed.

Lemma hour_token_inj (t t' : datetime) :
  hour_token t = hour_token t' ->
  year t = year t' /\ month t = month t' /\ day t = day t' /\ hour t = hour t'.
Proof.
  unfold hour_token.
  intros [-> [-> [-> E]%split_number]%split_number]%split_number.
  auto using str_N_inj.
Qed.

(** Tokens of different granularities never coincide. *)
Lemma month_token_not_day (t t' : datetime) : month_token t <> day_token t'.
Proof.
  unfold month_token, day_token. intros [_ E]%split_number.
  exact (number_has_no_dash _ _ _ E).
Qed.

Lemma month_token_not_hour (t t' : datetime) : month_token t <> hour_token t'.
Proof.
  unfold month_token, hour_token. intros [_ E]%split_number.
  exact (number_has_no_dash _ _ _ E).
Qed.

Lemma day_token_not_hour (t t' : datetime) : day_token t <> hour_token t'.
Proof.
  unfold day_token, hour_token. intros [_ [_ E]%split_number]%split_number.
  exact (number_has_no_dash _ _ _ E).
Qed.

Lemma week_token_not_month (t t' : datetime) : week_token t <> month_token t'.
Proof. unfold week_token, month_token. apply number_not_W. Qed.

Lemma week_token_not_day (t t' : datetime) : week_token t <> day_token t'.
Proof. unfold week_token, day_token. apply number_not_W. Qed.

Lemma week_token_not_hour (t t' : datetime) : week_token t <> hour_token t'.
Proof. unfold week_token, hour_token. apply number_not_W. Qed.

Lemma token_chars_number (n : N) : all_chars token_char (str_N n) = true.
Proof.
  apply (all_chars_weaken is_digit); [| apply str_N_digits].
  intros c Hc. unfold token_char. rewrite Hc. reflexivity.
Qed.

Lemma token_chars (t : datetime) :
  all_chars token_char (month_token t) = true /\
  all_chars token_char (week_token t) = true /\
  all_chars token_char (day_token t) = true /\
  all_chars token_char (hour_token t) = true.
Proof.
  unfold month_token, week_token, day_token, hour_token.
  repeat split;
    repeat (rewrite all_chars_app || rewrite token_chars_number); reflexivity.
Qed.

(** With a one-character divider that no token contains, a key
    determines its event name. *)
Lemma ev_template_name (prefix name name' tok tok' : string) (d : ascii) :
  token_char d = false ->
  all_chars token_char tok = true -> all_chars token_char tok' = true ->
  ev_template prefix (String d "") name tok
  = ev_template prefix (String d "") name' tok' ->
  name = name'.
Proof.
  intros Hd Ht Ht'. unfold ev_template. intros E.
  do 4 (apply (inj (String.app _)) in E).
  apply (split_at_last d) in E; [tauto | |];
    apply (all_chars_occurs token_char); assumption.
Qed.

(** ** Setting and reading a bit *)

Lemma nth_update_byte (bm : bitmap) (i : nat) (f : N -> N) :
  nth i (update_byte bm i f) 0%N = f (nth i bm 0%N).
Proof.
  revert bm. induction i as [|i IH]; intros [|b bm]; cbn [update_byte nth];
    try reflexivity.
  - rewrite IH. destruct i; reflexivity.
  - apply IH.
Qed.

Lemma getbit_setbit (bm : bitmap) (u : N) :
  getbit (setbit bm u true) (Z.of_N u) = 1.
Proof.
  unfold getbit, setbit, byte_at, bit_of_byte.
  destruct (Z.ltb_spec (Z.of_N u) 0) as [?|_]; [lia |].
  destruct (Z.ltb_spec (Z.of_N u) 0) as [?|_]; [lia |].
  change 8 with (Z.of_N 8). rewrite <- N2Z.inj_div, <- N2Z.inj_mod, N2Z.id.
  generalize (u / 8)%N as q. intros q.
  destruct (Z.ltb_spec (Z.of_N q) 0) as [?|_]; [lia |].
  replace (Z.to_nat (Z.of_N q)) with (N.to_nat q) by lia.
  rewrite nth_update_byte, N.setbit_eq. reflexivity.
Qed.

Lemma contains_insert_setbit (s : gmap string bitmap) (k : string) (u : N)
      (h : Bitmap) :
  contains (<[k := setbit (value_of s k) u true]> s) h u
  = if decide (k = redis_key h) then true else contains s h u.
Proof.
  unfold contains, cli_getbit. unfold value_of at 1.
  rewrite lookup_insert. destruct (decide (k = redis_key h)) as [->|_].
  - cbn [from_option id]. rewrite getbit_setbit. reflexivity.
  - reflexivity.
Qed.

(** The batch of [mark_event] for handles with lasting lifetimes: every
    request is accepted; [u] becomes a member under the keys of the
    handles and membership under every other key is as before. *)
Lemma apply_batch_marks (stats : list (Bitmap * option Z)) (u : N)
      (s : gmap string bitmap) :
  Forall (fun st => lasting (snd st)) stats ->
  snd (apply_batch (flat_map (mark_requests u) stats) s) = true /\
  forall h : Bitmap,
    contains (fst (apply_batch (flat_map (mark_requests u) stats) s)) h u
    = if decide (redis_key h ∈ map (fun st => redis_key (fst st)) stats)
      then true else contains s h u.
Proof.
  intros Hl. revert s. induction Hl as [|[obj ttl] stats Hlast _ IH]; intros s.
  - split; [reflexivity |]. intros h. cbn [flat_map map apply_batch fst].
    destruct (decide (redis_key h ∈ [])) as [I|_]; [inversion I | reflexivity].
  - set (s1 := <[redis_key obj := setbit (value_of s (redis_key obj)) u true]> s).
    assert (E : apply_batch (flat_map (mark_requests u) ((obj, ttl) :: stats)) s
                = apply_batch (flat_map (mark_requests u) stats) s1).
    { cbn [flat_map mark_requests]. destruct ttl as [t|]; cbn [snd lasting] in Hlast.
      - cbn [app apply_batch store_apply]. change (1 =? 1) with true. cbv iota.
        destruct (Z.leb_spec t 0); [lia | reflexivity].
      - cbn [app apply_batch store_apply]. reflexivity. }
    rewrite E. destruct (IH s1) as [Hok Hmem].
    split; [exact Hok |]. intros h. rewrite Hmem. subst s1.
    rewrite contains_insert_setbit. cbn [map fst].
    destruct (decide (redis_key obj = redis_key h)) as [Eq|NE];
      destruct (decide (redis_key h ∈ map (fun st => redis_key (fst st)) stats))
        as [I|NI];
      destruct (decide (redis_key h
                          ∈ redis_key obj
                            :: map (fun st => redis_key (fst st)) stats))
        as [I'|NI'];
      try reflexivity; exfalso;
      try (apply NI'; rewrite ?Eq; constructor; assumption);
      inversion I'; subst; auto.
Qed.

(** ** Marking events *)

Lemma pipeline_db (cmd : command) (stack : list command) (c : client) :
  db (snd (pipeline_execute (cmd :: stack) c))
  = fst (apply_batch (cmd :: stack) (db c)).
Proof.
  unfold pipeline_execute.
  destruct (apply_batch (cmd :: stack) (db c)) as [s ok]. reflexivity.
Qed.

(** What one [mark_event] call with every granularity and lasting
    lifetimes does to membership of [uuid]: it is set under the four
    keys of the event and left as it was under every other key. *)
Lemma mark_event_effect (self : Bitmapist) (utcnow : datetime) (name : string)
      (uuid : N) (now : option datetime)
      (month_ttl week_ttl day_ttl hour_ttl : option Z)
      (c : client) (h : Bitmap) :
  lasting month_ttl -> lasting week_ttl -> lasting day_ttl ->
  lasting hour_ttl ->
  let t := match now with Some t => t | None => utcnow end in
  contains
    (db (snd (mark_event self utcnow name uuid now true true true true
                         month_ttl week_ttl day_ttl hour_ttl c))) h uuid
  = if decide (redis_key h ∈ [redis_key (get_month_event self name t);
                              redis_key (get_week_event self name t);
                              redis_key (get_day_event self name t);
                              redis_key (get_hour_event self name t)])
    then true else contains (db c) h uuid.
Proof.
  intros Hm Hw Hd Hh t.
  set (stats := [(get_month_event self name t, month_ttl);
                 (get_week_event self name t, week_ttl);
                 (get_day_event self name t, day_ttl);
                 (get_hour_event self name t, hour_ttl)]).
  change (mark_event self utcnow name uuid now true true true true
                     month_ttl week_ttl day_ttl hour_ttl c)
    with (pipeline_execute (flat_map (mark_requests uuid) stats) c).
  assert (Hl : Forall (fun st => lasting (snd st)) stats)
    by (repeat constructor; assumption).
  destruct (apply_batch_marks stats uuid (db c) Hl) as [_ Hmem].
  etransitivity; [| exact (Hmem h)]. f_equal.
  change (flat_map (mark_requests uuid) stats)
    with (SETBIT (redis_key (get_month_event self name t)) uuid 1
          :: match month_ttl with
             | Some x => [EXPIRE (redis_key (get_month_event self name t)) x]
             | None => []
             end ++ flat_map (mark_requests uuid) (tl stats)).
  apply pipeline_db.
Qed.

Ltac marked_key :=
  match goal with
  | |- (if decide (?k ∈ ?l) then true else _) = true =>
      destruct (decide (k ∈ l)) as [_|N];
      [reflexivity | exfalso; apply N; repeat constructor]
  end.

Tactic Notation "other_key" ident(H) :=
  match goal with
  | |- (if decide (?k ∈ ?l) then true else ?x) = ?x =>
      destruct (decide (k ∈ l)) as [H|_]; [exfalso | reflexivity];
      rewrite ?month_key, ?week_key, ?day_key, ?hour_key in H;
      repeat (apply elem_of_cons in H as [H|H]);
      [ .. | apply elem_of_nil in H; exact H]
  end.

(** C9 as stated fails: with divider ["-"], marking event ["a"] on
    2012-1-5 makes identity 123 a member of the month bucket (year 1,
    month 5) of the different event name ["a-2012"], which shares the
    key of the day bucket. *)
Lemma mark_event_reaches_other_event_name :
  let self := Bitmapist_init "trackist" "-" None in
  let now := {| year := 2012; month := 1; day := 5; hour := 3;
                iso_year := 2012; iso_week := 1 |} in
  let other := {| year := 1; month := 5; day := 1; hour := 0;
                  iso_year := 1; iso_week := 18 |} in
  "a-2012" <> "a" /\
  contains (db fresh) (get_month_event self "a-2012" other) 123 = false /\
  contains
    (db (snd (mark_event self now "a" 123 (Some now) true true true true
                         None None None None fresh)))
    (get_month_event self "a-2012" other) 123 = true.
Proof. repeat split; [discriminate | vm_compute; reflexivity ..]. Qed.

(** C9, amended: marking an event with all four granularities, each
    per-bucket lifetime absent or positive, makes the identity a member
    of the hour, day, week and month buckets of the timestamp;
    membership in a bucket of the same event whose period differs (in
    particular the previous hour, day, week or month) is unchanged; and
    membership in every bucket of a different event name is unchanged
    when the divider is a single character other than a digit, ["-"]
    and ["W"]. *)
Theorem mark_event_membership (self : Bitmapist) (utcnow : datetime)
        (name : string) (uuid : N) (now : option datetime)
        (month_ttl week_ttl day_ttl hour_ttl : option Z) (c : client) :
  lasting month_ttl -> lasting week_ttl -> lasting day_ttl ->
  lasting hour_ttl ->
  let t := match now with Some t => t | None => utcnow end in
  let after := db (snd (mark_event self utcnow name uuid now
                                   true true true true
                                   month_ttl week_ttl day_ttl hour_ttl c)) in
  (contains after (get_hour_event self name t) uuid = true /\
   contains after (get_day_event self name t) uuid = true /\
   contains after (get_week_event self name t) uuid = true /\
   contains after (get_month_event self name t) uuid = true) /\
  (forall prev : datetime,
      (year prev, month prev, day prev, hour prev)
      <> (year t, month t, day t, hour t) ->
      contains after (get_hour_event self name prev) uuid
      = contains (db c) (get_hour_event self name prev) uuid) /\
  (forall prev : datetime,
      (year prev, month prev, day prev) <> (year t, month t, day t) ->
      contains after (get_day_event self name prev) uuid
      = contains (db c) (get_day_event self name prev) uuid) /\
  (forall prev : datetime,
      (iso_year prev, iso_week prev) <> (iso_year t, iso_week t) ->
      contains after (get_week_event self name prev) uuid
      = contains (db c) (get_week_event self name prev) uuid) /\
  (forall prev : datetime,
      (year prev, month prev) <> (year t, month t) ->
      contains after (get_month_event self name prev) uuid
      = contains (db c) (get_month_event self name prev) uuid) /\
  (forall (d : ascii) (name' : string) (t' : datetime),
      divider self = String d "" -> token_char d = false -> name' <> name ->
      contains after (get_hour_event self name' t') uuid
      = contains (db c) (get_hour_event self name' t') uuid /\
      contains after (get_day_event self name' t') uuid
      = contains (db c) (get_day_event self name' t') uuid /\
      contains after (get_week_event self name' t') uuid
      = contains (db c) (get_week_event self name' t') uuid /\
      contains after (get_month_event self name' t') uuid
      = contains (db c) (get_month_event self name' t') uuid).
Proof.
  intros Hm Hw Hd Hh t after. subst after.
  split; [| split; [| split; [| split; [| split]]]].
  - repeat split; rewrite mark_event_effect by assumption; fold t; marked_key.
  - intros prev Hne. rewrite mark_event_effect by assumption. fold t.
    other_key E; apply ev_template_token in E.
    + exact (month_token_not_hour _ _ (eq_sym E)).
    + exact (week_token_not_hour _ _ (eq_sym E)).
    + exact (day_token_not_hour _ _ (eq_sym E)).
    + apply hour_token_inj in E as (E1 & E2 & E3 & E4). apply Hne. congruence.
  - intros prev Hne. rewrite mark_event_effect by assumption. fold t.
    other_key E; apply ev_template_token in E.
    + exact (month_token_not_day _ _ (eq_sym E)).
    + exact (week_token_not_day _ _ (eq_sym E)).
    + apply day_token_inj in E as (E1 & E2 & E3). apply Hne. congruence.
    + exact (day_token_not_hour _ _ E).
  - intros prev Hne. rewrite mark_event_effect by assumption. fold t.
    other_key E; apply ev_template_token in E.
    + exact (week_token_not_month _ _ E).
    + apply week_token_inj in E as (E1 & E2). apply Hne. congruence.
    + exact (week_token_not_day _ _ E).
    + exact (week_token_not_hour _ _ E).
  - intros prev Hne. rewrite mark_event_effect by assumption. fold t.
    other_key E; apply ev_template_token in E.
    + apply month_token_inj in E as (E1 & E2). apply Hne. congruence.
    + exact (week_token_not_month _ _ (eq_sym E)).
    + exact (month_token_not_day _ _ E).
    + exact (month_token_not_hour _ _ E).
  - intros d name' t' Hdiv Hc Hne.
    destruct (token_chars t) as (Tm & Tw & Td & Th).
    destruct (token_chars t') as (Tm' & Tw' & Td' & Th').
    repeat split; rewrite mark_event_effect by assumption; fold t;
      other_key E; rewrite Hdiv in E; apply ev_template_name in E; auto.
Qed.

Lemma mark_event_membership_witness :
  let now := {| year := 2012; month := 1; day := 5; hour := 3;
                iso_year := 2012; iso_week := 1 |} in
  let prev := {| year := 2012; month := 1; day := 5; hour := 2;
                 iso_year := 2012; iso_week := 1 |} in
  let after := db (snd (mark_event bm_default now "active" 123 (Some now)
                                   true true true true
                                   None None None (Some 1) fresh)) in
  contains after (get_hour_event bm_default "active" now) 123 = true /\
  contains after (get_hour_event bm_default "active" prev) 123
  = contains (db fresh) (get_hour_event bm_default "active" prev) 123 /\
  contains after (get_month_event bm_default "signed-up" now) 123
  = contains (db fresh) (get_month_event bm_default "signed-up" now) 123.
Proof.
  intros now prev after.
  assert (Hlast : lasting (Some 1)) by (cbn [lasting]; lia).
  destruct (mark_event_membership bm_default now "active" 123 (Some now)
                                  None None None (Some 1) fresh
                                  Logic.I Logic.I Logic.I Hlast)
    as (Hin & Hhour & _ & _ & _ & Hname).
  split; [exact (proj1 Hin) | split].
  - apply Hhour. vm_compute. discriminate.
  - apply (Hname ":"%char "signed-up" now);
      [reflexivity | reflexivity | discriminate].
Defined.

(** ** Marking attributes *)

Lemma apply_batch_setbits_accepted (key : string) (uuids : list N) (v : Z)
      (s : gmap string bitmap) :
  valid_mark v = true ->
  snd (apply_batch (map (fun _id => SETBIT key _id v) uuids) s) = true.
Proof.
  intros Hv. revert s. induction uuids as [|u uuids IH]; intros s;
    [reflexivity |].
  cbn [map apply_batch store_apply]. unfold valid_mark in Hv.
  destruct (v =? 1); [apply IH |].
  destruct (v =? 0); [apply IH | discriminate].
Qed.

Lemma pipeline_result (stack : list command) (c : client) :
  snd (apply_batch stack (db c)) = true ->
  fst (pipeline_execute stack c) = Ok tt.
Proof.
  intros H. unfold pipeline_execute. destruct stack as [|cmd stack];
    [reflexivity |].
  destruct (apply_batch (cmd :: stack) (db c)) as [s ok]. cbn in *.
  rewrite H. reflexivity.
Qed.

(** C7: a mark value other than 0 and 1 makes [mark_attribute] (with one
    identity or a list) and [mark_attribute_multi] raise [ValueError]
    with the client untouched: no request is sent and every bitmap is as
    before.  With mark value 0 or 1 the call completes without error. *)
Theorem mark_attribute_checks_mark_value (self : Bitmapist) (name : string)
        (uuid : uuid_arg) (uuids : list N) (mark_as : Z) (c : client) :
  (mark_as <> 0 -> mark_as <> 1 ->
   mark_attribute self name uuid mark_as c = (Raise ValueError, c) /\
   mark_attribute_multi self name uuids mark_as c = (Raise ValueError, c)) /\
  (mark_as = 0 \/ mark_as = 1 ->
   fst (mark_attribute self name uuid mark_as c) = Ok tt /\
   fst (mark_attribute_multi self name uuids mark_as c) = Ok tt).
Proof.
  split.
  - intros H0 H1. unfold mark_attribute, mark_attribute_multi, valid_mark.
    destruct (Z.eqb_spec mark_as 0); [lia |].
    destruct (Z.eqb_spec mark_as 1); [lia |]. split; reflexivity.
  - intros Hv.
    assert (Hok : valid_mark mark_as = true)
      by (destruct Hv as [-> | ->]; reflexivity).
    assert (Hmulti : forall l,
               fst (mark_attribute_multi self name l mark_as c) = Ok tt).
    { intros l. unfold mark_attribute_multi. rewrite Hok. cbn [negb].
      apply pipeline_result, apply_batch_setbits_accepted, Hok. }
    split; [| apply Hmulti].
    destruct uuid as [u | l].
    + unfold mark_attribute, call. rewrite Hok. cbn [negb store_apply].
      destruct Hv as [-> | ->]; reflexivity.
    + specialize (Hmulti l). unfold mark_attribute. rewrite Hok. cbn [negb].
      exact Hmulti.
Qed.

Lemma mark_attribute_checks_mark_value_witness :
  (mark_attribute bm_default "active" (One 123) 4 paid_users
   = (Raise ValueError, paid_users) /\
   mark_attribute_multi bm_default "active" [123; 23232]%N 4 paid_users
   = (Raise ValueError, paid_users)) /\
  (fst (mark_attribute bm_default "active" (Many [123; 23232]%N) 0 paid_users)
   = Ok tt /\
   fst (mark_attribute_multi bm_default "active" [123; 23232]%N 0 paid_users)
   = Ok tt).
Proof.
  split.
  - apply (proj1 (mark_attribute_checks_mark_value
                    bm_default "active" (One 123) [123; 23232]%N 4 paid_users));
      lia.
  - apply (proj2 (mark_attribute_checks_mark_value
                    bm_default "active" (Many [123; 23232]%N) [123; 23232]%N
                    0 paid_users)).
    left. reflexivity.
Defined.

(** ** Composition *)

(** C6 as stated fails: [bit_op_and] with no operand reaches the store.
    The request [BITOP AND trackist:bitop:AND:] with an empty source
    list is sent, and the error raised is the store's reply. *)
Lemma compose_without_operands_contacts_store :
  compose bm_default AND [] fresh
  = (Raise ResponseError,
     {| db := ∅; sent := [BITOP "AND" "trackist:bitop:AND:" []] |}) /\
  sent (snd (compose bm_default AND [] fresh)) <> sent fresh.
Proof. split; [reflexivity | discriminate]. Qed.

(** C6, amended: [NOT] with more than one operand fails when the call
    is bound ([TypeError]), before any request, and the client is
    untouched.  [AND], [OR] and [XOR] with no operand are not checked:
    the first thing the call does is send [BITOP] with the derived key
    and an empty source list; the store rejects it, the error raised is
    [ResponseError] and the bitmaps are as before. *)
Theorem compose_operand_count (self : Bitmapist) (c : client) :
  (forall operands : list Bitmap,
      (1 < length operands)%nat ->
      compose self NOT operands c = (Raise TypeError, c)) /\
  (forall op : composition,
      op <> NOT ->
      compose self op [] c
      = (Raise ResponseError,
         {| db := db c;
            sent := sent c ++
                    [BITOP (op_name op)
                           (bitop_template (prefix self) (divider self)
                                           (op_name op) "")
                           []] |})).
Proof.
  split.
  - intros [|a [|b r]] H; cbn [length] in H; try lia. reflexivity.
  - intros [] H; try congruence; reflexivity.
Qed.

Lemma compose_operand_count_witness :
  compose bm_default NOT [handle "a"; handle "b"] paid_users
  = (Raise TypeError, paid_users) /\
  compose bm_default XOR [] paid_users
  = (Raise ResponseError,
     {| db := db paid_users;
        sent := sent paid_users ++
                [BITOP "XOR" (bitop_template "trackist" ":" "XOR" "") []] |}).
Proof.
  split.
  - apply (proj1 (compose_operand_count bm_default paid_users)
                 [handle "a"; handle "b"]).
    cbn [length]. lia.
  - apply (proj2 (compose_operand_count bm_default paid_users) XOR).
    discriminate.
Defined.

(** ** Key naming *)

(** C8: the key of every handle is the template of the specification
    applied to its inputs: prefix, ["ev"], event name and period token
    for event buckets (month [Y-M], week [WY-W] on the ISO year and
    week, day [Y-M-D], hour [Y-M-D-H]); prefix, ["at"] and name for
    attributes; prefix, ["bitop"], the operation name and the operand
    keys joined in order for derived bitmaps, which is also the key a
    composition hands back. *)
Theorem keys_follow_templates (self : Bitmapist) (name : string) (t : datetime) :
  redis_key (get_month_event self name t)
  = ev_template (prefix self) (divider self) name
                (str_N (year t) +:+ "-" +:+ str_N (month t)) /\
  redis_key (get_week_event self name t)
  = ev_template (prefix self) (divider self) name
                ("W" +:+ str_N (iso_year t) +:+ "-" +:+ str_N (iso_week t)) /\
  redis_key (get_day_event self name t)
  = ev_template (prefix self) (divider self) name
                (str_N (year t) +:+ "-" +:+ str_N (month t) +:+ "-"
                 +:+ str_N (day t)) /\
  redis_key (get_hour_event self name t)
  = ev_template (prefix self) (divider self) name
                (str_N (year t) +:+ "-" +:+ str_N (month t) +:+ "-"
                 +:+ str_N (day t) +:+ "-" +:+ str_N (hour t)) /\
  redis_key (get_attribute self name)
  = at_template (prefix self) (divider self) name /\
  (forall (op : string) (ttl : Z) (events : list Bitmap),
      bitop_key op (prefix self) (divider self) (map redis_key events)
      = bitop_template (prefix self) (divider self) op
                       (join "-" (map redis_key events)) /\
      forall (c c' : client) (h : Bitmap),
        BitOperation_init op (prefix self) (divider self) ttl events c
        = (Ok h, c') ->
        redis_key h
        = bitop_template (prefix self) (divider self) op
                         (join "-" (map redis_key events))).
Proof.
  split; [apply month_key |]. split; [apply week_key |].
  split; [apply day_key |]. split; [apply hour_key |].
  split; [reflexivity |].
  intros op ttl events. split; [reflexivity |].
  intros c c' h. unfold BitOperation_init.
  destruct (call (BITOP _ _ _) c) as [[[]|e] c1]; [| discriminate].
  destruct (call (EXPIRE _ _) c1) as [[[]|e] c2]; [| discriminate].
  intros [= <- _]. reflexivity.
Qed.

Lemma keys_follow_templates_witness :
  exists (h : Bitmap) (c' : client),
    BitOperation_init "Not" "trackist" ":" 60
                      [get_attribute bm_default "paid_user"] paid_users
    = (Ok h, c') /\
    redis_key h = "trackist:bitop:Not:trackist:at:paid_user".
Proof.
  set (r := BitOperation_init "Not" "trackist" ":" 60
                              [get_attribute bm_default "paid_user"]
                              paid_users).
  assert (E : r = (Ok (handle "trackist:bitop:Not:trackist:at:paid_user"),
                   snd r)) by (vm_compute; reflexivity).
  exists (handle "trackist:bitop:Not:trackist:at:paid_user"), (snd r).
  split; [exact E |].
  destruct (keys_follow_templates bm_default "paid_user"
              {| year := 2012; month := 1; day := 5; hour := 3;
                 iso_year := 2012; iso_week := 1 |})
    as (_ & _ & _ & _ & _ & Hop).
  exact (proj2 (Hop "Not" 60 [get_attribute bm_default "paid_user"])
               paid_users (snd r) _ E).
Defined.

(** ** The expectations of the test suite *)

(** [test_attribute_get_count]: identities 123..143 are marked. *)
Example test_attribute_get_count :
  map (fun r => get_count (db paid_users)
                          (get_attribute bm_default "paid_user")
                          (fst r) (snd r))
      [(None, None); (Some 120, Some 128); (Some 128, Some 136);
       (Some 128, Some 144); (Some 128, Some 146); (Some 120, Some 136);
       (Some 132, Some 140); (Some 136, Some 139); (Some 0, Some (-1))]
  = [Ok 21; Ok 6; Ok 9; Ok 16; Ok 16; Ok 14; Ok 9; Ok 4; Ok 21].
Proof. vm_compute. reflexivity. Qed.

(** [test_attribute_get_count_for_low_bits]: identities 0..29. *)
Example test_attribute_get_count_for_low_bits :
  get_count
    (db (snd (mark_attribute_multi bm_default "paid_user"
                (map N.of_nat (seq 0 30)) 1 fresh)))
    (get_attribute bm_default "paid_user") (Some 2) (Some 5) = Ok 4.
Proof. vm_compute. reflexivity. Qed.

(** [test_bit_operation_not]: identities 4 and 7, then 9. *)
Example test_bit_operation_not :
  let paid := get_attribute bm_default "paid_user" in
  let c1 := snd (mark_attribute bm_default "paid_user" (One 4) 1 fresh) in
  let c2 := snd (mark_attribute bm_default "paid_user" (One 7) 1 c1) in
  let c3 := snd (mark_attribute bm_default "paid_user" (One 9) 1 c2) in
  len (db (snd (bit_op_not bm_default paid c2)))
      (handle "trackist:bitop:Not:trackist:at:paid_user") = Ok 6 /\
  len (db (snd (bit_op_not bm_default paid c3)))
      (handle "trackist:bitop:Not:trackist:at:paid_user") = Ok 13.
Proof. split; vm_compute; reflexivity. Qed.



(** ** Single bits of a bitmap *)

Lemma getbit_of_N (bm : bitmap) (v : N) :
  getbit bm (Z.of_N v)
  = Z.b2z (N.testbit (nth (N.to_nat (v / 8)) bm 0%N) (7 - v mod 8)).
Proof.
  unfold getbit, byte_at, bit_of_byte.
  destruct (Z.ltb_spec (Z.of_N v) 0) as [?|_]; [lia |].
  destruct (Z.ltb_spec (Z.of_N v) 0) as [?|_]; [lia |].
  change 8 with (Z.of_N 8). rewrite <- N2Z.inj_div, <- N2Z.inj_mod, N2Z.id.
  generalize (v / 8)%N as q. intros q.
  destruct (Z.ltb_spec (Z.of_N q) 0) as [?|_]; [lia |].
  replace (Z.to_nat (Z.of_N q)) with (N.to_nat q) by lia. reflexivity.
Qed.

Lemma nth_update_byte_other (bm : bitmap) (i j : nat) (f : N -> N) :
  i <> j -> nth j (update_byte bm i f) 0%N = nth j bm 0%N.
Proof.
  revert bm j. induction i as [|i IH]; intros [|b bm] [|j] H;
    cbn [update_byte nth]; try reflexivity; try congruence.
  - destruct j; reflexivity.
  - rewrite IH by congruence. destruct j; reflexivity.
  - apply IH. congruence.
Qed.

Lemma bit_position (u v : N) :
  u <> v -> (u / 8 = v / 8 -> 7 - u mod 8 <> 7 - v mod 8)%N.
Proof.
  intros H E.
  pose proof (N.div_mod' u 8) as Hu. pose proof (N.div_mod' v 8) as Hv.
  pose proof (N.mod_lt u 8) as Lu. pose proof (N.mod_lt v 8) as Lv.
  rewrite E in Hu. lia.
Qed.

(** Reading any bit after a write: the written bit has the written
    value, every other bit is as before. *)
Lemma getbit_setbit_any (bm : bitmap) (u v : N) (b : bool) :
  getbit (setbit bm u b) (Z.of_N v)
  = if decide (u = v) then Z.b2z b else getbit bm (Z.of_N v).
Proof.
  rewrite !getbit_of_N. unfold setbit.
  destruct (decide (u = v)) as [->|NE].
  - rewrite nth_update_byte. destruct b.
    + rewrite N.setbit_eq. reflexivity.
    + rewrite N.clearbit_eq. reflexivity.
  - destruct (decide (N.to_nat (u / 8) = N.to_nat (v / 8))) as [E|NE'].
    + rewrite <- E, nth_update_byte.
      assert (Hp : (7 - u mod 8 <> 7 - v mod 8)%N)
        by (apply bit_position; [exact NE | lia]).
      destruct b.
      * rewrite N.setbit_neq by exact Hp. rewrite E. reflexivity.
      * rewrite N.clearbit_neq by exact Hp. rewrite E. reflexivity.
    + rewrite nth_update_byte_other by exact NE'. reflexivity.
Qed.

Lemma value_of_insert (s : gmap string bitmap) (k k' : string) (bm : bitmap) :
  value_of (<[k := bm]> s) k' = if decide (k = k') then bm else value_of s k'.
Proof.
  unfold value_of. rewrite lookup_insert.
  destruct (decide (k = k')); reflexivity.
Qed.

(** Membership after one accepted [SETBIT]. *)
Lemma contains_store_setbit (s : gmap string bitmap) (k : string) (u v : N)
      (b : bool) (h : Bitmap) :
  contains (<[k := setbit (value_of s k) u b]> s) h v
  = if decide (k = redis_key h /\ u = v) then b else contains s h v.
Proof.
  unfold contains, cli_getbit. rewrite value_of_insert.
  destruct (decide (k = redis_key h)) as [->|NK].
  - rewrite getbit_setbit_any. destruct (decide (u = v)) as [->|NU].
    + destruct (decide (redis_key h = redis_key h /\ v = v)) as [_|[]]; [| auto].
      destruct b; reflexivity.
    + destruct (decide (redis_key h = redis_key h /\ u = v)) as [[_ ?]|_];
        [contradiction | reflexivity].
  - destruct (decide (k = redis_key h /\ u = v)) as [[? _]|_];
      [contradiction | reflexivity].
Qed.

(** ** Population count under a write *)

Lemma popcount_zero : popcount 0 = 0.
Proof. reflexivity. Qed.

Lemma popcount_write (b : N) (p : N) (v : bool) :
  (p < 8)%N ->
  popcount (if v then N.setbit b p else N.clearbit b p)
  = popcount b - Z.b2z (N.testbit b p) + Z.b2z v.
Proof.
  intros Hp. unfold popcount, bit_of_byte. cbn [map Zsum fold_right].
  change (7 - Z.to_N 0)%N with 7%N. change (7 - Z.to_N 1)%N with 6%N.
  change (7 - Z.to_N 2)%N with 5%N. change (7 - Z.to_N 3)%N with 4%N.
  change (7 - Z.to_N 4)%N with 3%N. change (7 - Z.to_N 5)%N with 2%N.
  change (7 - Z.to_N 6)%N with 1%N. change (7 - Z.to_N 7)%N with 0%N.
  assert (Hc : (p = 0 \/ p = 1 \/ p = 2 \/ p = 3 \/ p = 4 \/ p = 5 \/ p = 6
                \/ p = 7)%N) by lia.
  destruct v.
  - rewrite !N.setbit_eqb.
    destruct Hc as [-> | [-> | [-> | [-> | [-> | [-> | [-> | ->]]]]]]];
      cbn [N.eqb Pos.eqb orb];
      match goal with
      | |- _ = _ - Z.b2z (N.testbit b ?k) + _ => destruct (N.testbit b k)
      end; cbn [Z.b2z]; lia.
  - rewrite !N.clearbit_eqb.
    destruct Hc as [-> | [-> | [-> | [-> | [-> | [-> | [-> | ->]]]]]]];
      cbn [N.eqb Pos.eqb negb andb]; rewrite ?andb_true_r, ?andb_false_r;
      match goal with
      | |- _ = _ - Z.b2z (N.testbit b ?k) + _ => destruct (N.testbit b k)
      end; cbn [Z.b2z]; lia.
Qed.

Lemma Zsum_cons (x : Z) (l : list Z) : Zsum (x :: l) = x + Zsum l.
Proof. reflexivity. Qed.

Lemma bitcount_update_byte (bm : bitmap) (i : nat) (f : N -> N) :
  bitcount_all (update_byte bm i f)
  = bitcount_all bm - popcount (nth i bm 0%N) + popcount (f (nth i bm 0%N)).
Proof.
  unfold bitcount_all. revert bm.
  induction i as [|i IH]; intros [|b bm]; cbn [update_byte map nth];
    rewrite ?Zsum_cons, ?IH; change (Zsum []) with 0;
    change (popcount 0) with 0; try lia.
  replace (nth i [] 0%N) with 0%N by (destruct i; reflexivity).
  cbn [map]. change (Zsum []) with 0. change (popcount 0) with 0. lia.
Qed.

(** Writing one bit changes the whole count by the change of that bit. *)
Lemma bitcount_setbit (bm : bitmap) (u : N) (v : bool) :
  bitcount_all (setbit bm u v)
  = bitcount_all bm - getbit bm (Z.of_N u) + Z.b2z v.
Proof.
  unfold setbit. rewrite bitcount_update_byte, getbit_of_N.
  assert (Hlt : (7 - u mod 8 < 8)%N)
    by (apply N.le_lt_trans with 7%N; [apply N.le_sub_l | reflexivity]).
  cbv beta. rewrite (popcount_write _ (7 - u mod 8) v Hlt). lia.
Qed.

(** ** Marking attributes: membership and count *)

Lemma store_apply_setbit (s : gmap string bitmap) (k : string) (u : N) (v : Z) :
  v = 0 \/ v = 1 ->
  store_apply (SETBIT k u v) s
  = Some (<[k := setbit (value_of s k) u (v =? 1)]> s).
Proof. intros [-> | ->]; reflexivity. Qed.

Lemma mark_attribute_db (self : Bitmapist) (name : string) (u : N) (v : Z)
      (c : client) :
  v = 0 \/ v = 1 ->
  db (snd (mark_attribute self name (One u) v c))
  = <[redis_key (get_attribute self name)
      := setbit (value_of (db c) (redis_key (get_attribute self name))) u
                (v =? 1)]> (db c).
Proof.
  intros Hv. unfold mark_attribute, call.
  replace (valid_mark v) with true by (destruct Hv as [-> | ->]; reflexivity).
  cbn [negb]. rewrite store_apply_setbit by exact Hv. reflexivity.
Qed.

Lemma contains_getbit (s : gmap string bitmap) (h : Bitmap) (v : N) :
  cli_getbit s (redis_key h) (Z.of_N v) = Z.b2z (contains s h v).
Proof.
  unfold contains, cli_getbit. rewrite getbit_of_N.
  destruct (N.testbit _ _); reflexivity.
Qed.

(** X4: marking one identity of an attribute sets its membership to the
    mark value and changes no other identity and no other bitmap. *)
Theorem mark_attribute_membership (self : Bitmapist) (name : string) (u : N)
        (mark_as : Z) (c : client) (h : Bitmap) (v : N) :
  mark_as = 0 \/ mark_as = 1 ->
  contains (db (snd (mark_attribute self name (One u) mark_as c))) h v
  = if decide (redis_key (get_attribute self name) = redis_key h /\ u = v)
    then mark_as =? 1
    else contains (db c) h v.
Proof.
  intros Hv. rewrite mark_attribute_db by exact Hv.
  apply contains_store_setbit.
Qed.

Lemma mark_attribute_membership_witness :
  contains (db (snd (mark_attribute bm_default "paid_user" (One 130) 0
                                    paid_users)))
           (get_attribute bm_default "paid_user") 130 = false /\
  contains (db (snd (mark_attribute bm_default "paid_user" (One 130) 0
                                    paid_users)))
           (get_attribute bm_default "paid_user") 131 = true.
Proof.
  split.
  - rewrite (mark_attribute_membership bm_default "paid_user" 130 0 paid_users
               (get_attribute bm_default "paid_user") 130 (or_introl eq_refl)).
    vm_compute. reflexivity.
  - rewrite (mark_attribute_membership bm_default "paid_user" 130 0 paid_users
               (get_attribute bm_default "paid_user") 131 (or_introl eq_refl)).
    vm_compute. reflexivity.
Defined.

(** X5: the whole count of an attribute after marking one identity: it
    moves by the change of that identity's bit, so marking a member
    again or clearing a non-member leaves it as it was. *)
Theorem mark_attribute_count (self : Bitmapist) (name : string) (u : N)
        (mark_as : Z) (c : client) :
  mark_as = 0 \/ mark_as = 1 ->
  len (db (snd (mark_attribute self name (One u) mark_as c)))
      (get_attribute self name)
  = Ok (cli_bitcount (db c) (redis_key (get_attribute self name))
        - Z.b2z (contains (db c) (get_attribute self name) u)
        + mark_as).
Proof.
  intros Hv. rewrite mark_attribute_db by exact Hv.
  unfold len, get_count. cbn [truthy negb andb]. f_equal.
  unfold cli_bitcount. rewrite value_of_insert.
  destruct (decide (_ = _)) as [_|NE]; [| contradiction].
  rewrite bitcount_setbit, <- contains_getbit. unfold cli_getbit.
  destruct Hv as [-> | ->]; reflexivity.
Qed.

Lemma mark_attribute_count_witness :
  len (db (snd (mark_attribute bm_default "paid_user" (One 23232) 1
                               paid_users)))
      (get_attribute bm_default "paid_user") = Ok 22 /\
  len (db (snd (mark_attribute bm_default "paid_user" (One 123) 1
                               paid_users)))
      (get_attribute bm_default "paid_user") = Ok 21.
Proof.
  split.
  - rewrite (mark_attribute_count bm_default "paid_user" 23232 1 paid_users
               (or_intror eq_refl)).
    vm_compute. reflexivity.
  - rewrite (mark_attribute_count bm_default "paid_user" 123 1 paid_users
               (or_intror eq_refl)).
    vm_compute. reflexivity.
Defined.

Lemma apply_batch_setbits (key : string) (uuids : list N) (v : Z)
      (s : gmap string bitmap) (h : Bitmap) (w : N) :
  v = 0 \/ v = 1 ->
  contains (fst (apply_batch (map (fun _id => SETBIT key _id v) uuids) s)) h w
  = if decide (key = redis_key h /\ w ∈ uuids) then v =? 1
    else contains s h w.
Proof.
  intros Hv. revert s. induction uuids as [|u uuids IH]; intros s.
  - cbn [map apply_batch fst].
    destruct (decide (key = redis_key h /\ w ∈ [])) as [[_ I]|_];
      [inversion I | reflexivity].
  - cbn [map apply_batch]. rewrite store_apply_setbit by exact Hv.
    rewrite IH, contains_store_setbit.
    destruct (decide (key = redis_key h /\ w ∈ uuids)) as [[K I]|N1];
      destruct (decide (key = redis_key h /\ w ∈ u :: uuids)) as [[K' I']|N2];
      destruct (decide (key = redis_key h /\ u = w)) as [[K'' E]|N3];
      try reflexivity; exfalso;
      repeat match goal with
             | H : _ ∈ _ :: _ |- _ => apply elem_of_cons in H
             | H : ~ (_ /\ _ ∈ _ :: _) |- _ => rewrite elem_of_cons in H
             end;
      intuition congruence.
Qed.

(** X6: marking a list of identities of an attribute sets the membership of
    each of them to the mark value and changes no other identity and no
    other bitmap. *)
Theorem mark_attribute_multi_membership (self : Bitmapist) (name : string)
        (uuids : list N) (mark_as : Z) (c : client) (h : Bitmap) (w : N) :
  mark_as = 0 \/ mark_as = 1 ->
  let after := db (snd (mark_attribute_multi self name uuids mark_as c)) in
  contains after h w
  = (if decide (redis_key (get_attribute self name) = redis_key h
                /\ w ∈ uuids)
     then mark_as =? 1
     else contains (db c) h w) /\
  db (snd (mark_attribute self name (Many uuids) mark_as c)) = after.
Proof.
  intros Hv after. subst after. unfold mark_attribute, mark_attribute_multi.
  replace (valid_mark mark_as) with true
    by (destruct Hv as [-> | ->]; reflexivity).
  cbn [negb]. split; [| reflexivity].
  destruct uuids as [|u uuids].
  - cbn [map pipeline_execute snd].
    destruct (decide (_ /\ w ∈ [])) as [[_ I]|_]; [inversion I | reflexivity].
  - cbn [map]. rewrite pipeline_db.
    apply (apply_batch_setbits _ (u :: uuids) mark_as (db c) h w Hv).
Qed.

Lemma mark_attribute_multi_membership_witness :
  contains (db (snd (mark_attribute_multi bm_default "paid_user"
                                          [3; 130; 200]%N 0 paid_users)))
           (get_attribute bm_default "paid_user") 130 = false /\
  contains (db (snd (mark_attribute_multi bm_default "paid_user"
                                          [3; 130; 200]%N 0 paid_users)))
           (get_attribute bm_default "paid_user") 131 = true.
Proof.
  split.
  - rewrite (proj1 (mark_attribute_multi_membership
                      bm_default "paid_user" [3; 130; 200]%N 0 paid_users
                      (get_attribute bm_default "paid_user") 130
                      (or_introl eq_refl))).
    vm_compute. reflexivity.
  - rewrite (proj1 (mark_attribute_multi_membership
                      bm_default "paid_user" [3; 130; 200]%N 0 paid_users
                      (get_attribute bm_default "paid_user") 131
                      (or_introl eq_refl))).
    vm_compute. reflexivity.
Defined.

(** ** Counting: bounds of the result, the end of the string *)











Lemma getbit_beyond (bm : bitmap) (off : Z) :
  8 * strlen bm <= off -> getbit bm off = 0.
Proof.
  intros H. pose proof (Nat2Z.is_nonneg (length bm)) as Hl.
  fold (strlen bm) in Hl. unfold getbit.
  destruct (Z.ltb_spec off 0) as [?|_]; [lia |].
  destruct (Z.ltb_spec off 0) as [?|_]; [lia |].
  rewrite byte_at_beyond by (Z.div_mod_to_equations; lia).
  unfold bit_of_byte. rewrite N.bits_0. reflexivity.
Qed.


Lemma byte_at_cons (b : N) (bm : bitmap) (i : Z) :
  0 <= i -> byte_at (b :: bm) (1 + i) = byte_at bm i.
Proof.
  intros H. unfold byte_at.
  destruct (Z.ltb_spec (1 + i) 0); [lia |].
  destruct (Z.ltb_spec i 0); [lia |].
  replace (Z.to_nat (1 + i)) with (S (Z.to_nat i)) by lia. reflexivity.
Qed.

(** The whole-key count is the sum over the bytes of the string. *)
Lemma bitcount_all_bytes (bm : bitmap) :
  bitcount_all bm
  = Zsum (map (fun i => popcount (byte_at bm i)) (Zrange 0 (length bm))).
Proof.
  unfold bitcount_all. induction bm as [|b bm IH]; [reflexivity |].
  cbn [length map]. rewrite Zrange_succ. cbn [map]. rewrite !Zsum_cons, IH.
  f_equal. f_equal. unfold Zrange. rewrite !map_map. apply map_ext.
  intros i. replace (0 + 1 + Z.of_nat i) with (1 + (0 + Z.of_nat i)) by lia.
  rewrite byte_at_cons by lia. reflexivity.
Qed.

Lemma bitcount_all_bits (bm : bitmap) :
  bitcount_all bm = Zsum (map (getbit bm) (Zrange 0 (8 * length bm))).
Proof.
  rewrite bitcount_all_bytes. symmetry.
  apply (bits_of_bytes bm 0 (length bm)). lia.
Qed.




(** X10: the whole count is the number of members: [len] sums the membership
    of the identities below eight times the string length, and no
    identity from there on is a member. *)
Theorem len_counts_members (s : gmap string bitmap) (self : Bitmap) :
  len s self
  = Ok (Zsum (map (fun i => Z.b2z (contains s self (N.of_nat i)))
                  (seq 0 (8 * length (value_of s (redis_key self)))))) /\
  (forall uuid : N,
      (8 * N.of_nat (length (value_of s (redis_key self))) <= uuid)%N ->
      contains s self uuid = false).
Proof.
  split.
  - unfold len, get_count. cbn [truthy negb andb]. f_equal.
    unfold cli_bitcount. rewrite bitcount_all_bits. unfold Zrange.
    rewrite map_map. f_equal. apply map_ext. intros i.
    rewrite <- contains_getbit. unfold cli_getbit. f_equal. lia.
  - intros uuid H. unfold contains, cli_getbit.
    rewrite getbit_beyond by (unfold strlen; lia). reflexivity.
Qed.

Lemma len_counts_members_witness :
  contains (db paid_users) (get_attribute bm_default "paid_user") 144 = false.
Proof.
  apply (proj2 (len_counts_members (db paid_users)
                                   (get_attribute bm_default "paid_user"))).
  vm_compute. discriminate.
Defined.

(** ** Marking events: selected granularities, other identities *)

Lemma store_apply_expire_lasting (s : gmap string bitmap) (k : string) (t : Z) :
  0 < t -> store_apply (EXPIRE k t) s = Some s.
Proof.
  intros H. cbn [store_apply]. destruct (Z.leb_spec t 0); [lia | reflexivity].
Qed.

Lemma apply_batch_mark_step (obj : Bitmap) (ttl : option Z)
      (stats : list (Bitmap * option Z)) (u : N) (s : gmap string bitmap) :
  lasting ttl ->
  apply_batch (flat_map (mark_requests u) ((obj, ttl) :: stats)) s
  = apply_batch (flat_map (mark_requests u) stats)
                (<[redis_key obj := setbit (value_of s (redis_key obj)) u true]> s).
Proof.
  intros Hl. cbn [flat_map mark_requests]. destruct ttl as [t|]; cbn [lasting] in Hl.
  - cbn [app apply_batch]. rewrite store_apply_setbit by (right; reflexivity).
    rewrite store_apply_expire_lasting by exact Hl. reflexivity.
  - cbn [app apply_batch]. rewrite store_apply_setbit by (right; reflexivity).
    reflexivity.
Qed.

(** The store after the batch of [mark_event]: under each written key
    the bit [u] is set in the old value; other keys keep their value. *)
Lemma apply_batch_mark_values (stats : list (Bitmap * option Z)) (u : N)
      (s : gmap string bitmap) (k : string) :
  Forall (fun st => lasting (snd st)) stats ->
  NoDup (map (fun st => redis_key (fst st)) stats) ->
  fst (apply_batch (flat_map (mark_requests u) stats) s) !! k
  = if decide (k ∈ map (fun st => redis_key (fst st)) stats)
    then Some (setbit (value_of s k) u true)
    else s !! k.
Proof.
  intros Hl. revert s. induction Hl as [|[obj ttl] stats Hlast _ IH];
    intros s Hnd.
  - cbn [flat_map map apply_batch fst].
    destruct (decide (k ∈ [])) as [I|_]; [inversion I | reflexivity].
  - cbn [map fst] in Hnd. apply NoDup_cons in Hnd as [Hnotin Hnd].
    rewrite apply_batch_mark_step by exact Hlast. rewrite IH by exact Hnd.
    cbn [map fst].
    destruct (decide (k ∈ map (fun st => redis_key (fst st)) stats)) as [I|NI];
      destruct (decide (k ∈ redis_key obj
                          :: map (fun st => redis_key (fst st)) stats))
        as [I'|NI'].
    + rewrite value_of_insert.
      destruct (decide (redis_key obj = k)) as [E|_]; [| reflexivity].
      subst k. contradiction.
    + exfalso. apply NI'. constructor. exact I.
    + apply elem_of_cons in I' as [->|I']; [| contradiction].
      apply lookup_insert_eq.
    + rewrite lookup_insert_ne; [reflexivity |].
      intros E. apply NI'. rewrite E. constructor.
Qed.

Lemma pipeline_db_any (stack : list command) (c : client) :
  db (snd (pipeline_execute stack c)) = fst (apply_batch stack (db c)).
Proof. destruct stack; [reflexivity | apply pipeline_db]. Qed.

(** The four keys of one event at one timestamp are pairwise distinct. *)
Lemma event_keys_distinct (self : Bitmapist) (name : string) (t : datetime) :
  let km := redis_key (get_month_event self name t) in
  let kw := redis_key (get_week_event self name t) in
  let kd := redis_key (get_day_event self name t) in
  let kh := redis_key (get_hour_event self name t) in
  km <> kw /\ km <> kd /\ km <> kh /\ kw <> kd /\ kw <> kh /\ kd <> kh.
Proof.
  cbv zeta. rewrite month_key, week_key, day_key, hour_key.
  repeat split; intros E%ev_template_token.
  - exact (week_token_not_month _ _ (eq_sym E)).
  - exact (month_token_not_day _ _ E).
  - exact (month_token_not_hour _ _ E).
  - exact (week_token_not_day _ _ E).
  - exact (week_token_not_hour _ _ E).
  - exact (day_token_not_hour _ _ E).
Qed.

Ltac in_list :=
  repeat match goal with
         | H : _ ∈ [] |- _ => inversion H
         | H : _ ∈ _ :: _ |- _ => apply elem_of_cons in H as [H|H]
         | H : ~ (_ ∈ _ :: _) |- _ => rewrite elem_of_cons in H
         | H : ~ (_ ∈ []) |- _ => clear H
         end.

Lemma selected_keys_nodup (self : Bitmapist) (name : string) (t : datetime)
      (m w d h : bool) :
  NoDup (selected_keys self name t m w d h).
Proof.
  destruct (event_keys_distinct self name t) as (A & B & C & D & E & F).
  unfold selected_keys.
  destruct m, w, d, h; cbn [app];
    repeat (apply NoDup_cons; split; [intros I; in_list; congruence |]);
    apply NoDup_nil; exact Logic.I.
Qed.

Lemma selected_keys_member (self : Bitmapist) (name : string) (t : datetime)
      (m w d h : bool) :
  (redis_key (get_month_event self name t) ∈ selected_keys self name t m w d h
   <-> m = true) /\
  (redis_key (get_week_event self name t) ∈ selected_keys self name t m w d h
   <-> w = true) /\
  (redis_key (get_day_event self name t) ∈ selected_keys self name t m w d h
   <-> d = true) /\
  (redis_key (get_hour_event self name t) ∈ selected_keys self name t m w d h
   <-> h = true).
Proof.
  destruct (event_keys_distinct self name t) as (A & B & C & D & E & F).
  unfold selected_keys.
  destruct m, w, d, h; cbn [app];
    repeat match goal with
           | |- _ /\ _ => split
           | |- _ <-> _ => split
           end;
    solve [ intros _; repeat constructor
          | intros I; in_list; congruence
          | discriminate ].
Qed.

(** The store after [mark_event] with lasting lifetimes: the value under
    each selected key has bit [uuid] set, every other key is as before. *)
Lemma mark_event_store (self : Bitmapist) (utcnow : datetime) (name : string)
      (uuid : N) (now : option datetime) (m w d h : bool)
      (month_ttl week_ttl day_ttl hour_ttl : option Z) (c : client)
      (k : string) :
  lasting month_ttl -> lasting week_ttl -> lasting day_ttl ->
  lasting hour_ttl ->
  let t := match now with Some t => t | None => utcnow end in
  db (snd (mark_event self utcnow name uuid now m w d h
                      month_ttl week_ttl day_ttl hour_ttl c)) !! k
  = if decide (k ∈ selected_keys self name t m w d h)
    then Some (setbit (value_of (db c) k) uuid true)
    else db c !! k.
Proof.
  intros Hm Hw Hd Hh t. unfold mark_event. fold t.
  rewrite pipeline_db_any.
  set (stats := (if m then [(get_month_event self name t, month_ttl)] else [])
                ++ (if w then [(get_week_event self name t, week_ttl)] else [])
                ++ (if d then [(get_day_event self name t, day_ttl)] else [])
                ++ (if h then [(get_hour_event self name t, hour_ttl)] else [])).
  assert (Hkeys : map (fun st => redis_key (fst st)) stats
                  = selected_keys self name t m w d h)
    by (subst stats; destruct m, w, d, h; reflexivity).
  rewrite <- Hkeys. apply apply_batch_mark_values.
  - subst stats. destruct m, w, d, h; cbn [app]; repeat constructor; assumption.
  - rewrite Hkeys. apply selected_keys_nodup.
Qed.

Lemma mark_event_value (self : Bitmapist) (utcnow : datetime) (name : string)
      (uuid : N) (now : option datetime) (m w d h : bool)
      (month_ttl week_ttl day_ttl hour_ttl : option Z) (c : client)
      (k : string) :
  lasting month_ttl -> lasting week_ttl -> lasting day_ttl ->
  lasting hour_ttl ->
  let t := match now with Some t => t | None => utcnow end in
  value_of (db (snd (mark_event self utcnow name uuid now m w d h
                                month_ttl week_ttl day_ttl hour_ttl c))) k
  = if decide (k ∈ selected_keys self name t m w d h)
    then setbit (value_of (db c) k) uuid true
    else value_of (db c) k.
Proof.
  intros Hm Hw Hd Hh t. unfold value_of at 1.
  rewrite mark_event_store by assumption. fold t.
  destruct (decide (k ∈ _)); reflexivity.
Qed.

Lemma contains_value (s : gmap string bitmap) (h : Bitmap) (v : N) :
  contains s h v = negb (getbit (value_of s (redis_key h)) (Z.of_N v) =? 0).
Proof. reflexivity. Qed.

Lemma contains_setbit_same (bm : bitmap) (u : N) :
  negb (getbit (setbit bm u true) (Z.of_N u) =? 0) = true.
Proof. rewrite getbit_setbit. reflexivity. Qed.

(** X11: [mark_event] with any choice of granularities and lasting
    lifetimes: the identity becomes a member of exactly the selected
    buckets of the timestamp; its membership in an unselected bucket of
    the same event and timestamp is as before. *)
Theorem mark_event_granularities (self : Bitmapist) (utcnow : datetime)
        (name : string) (uuid : N) (now : option datetime) (m w d h : bool)
        (month_ttl week_ttl day_ttl hour_ttl : option Z) (c : client) :
  lasting month_ttl -> lasting week_ttl -> lasting day_ttl ->
  lasting hour_ttl ->
  let t := match now with Some t => t | None => utcnow end in
  let after := db (snd (mark_event self utcnow name uuid now m w d h
                                   month_ttl week_ttl day_ttl hour_ttl c)) in
  contains after (get_month_event self name t) uuid
  = m || contains (db c) (get_month_event self name t) uuid /\
  contains after (get_week_event self name t) uuid
  = w || contains (db c) (get_week_event self name t) uuid /\
  contains after (get_day_event self name t) uuid
  = d || contains (db c) (get_day_event self name t) uuid /\
  contains after (get_hour_event self name t) uuid
  = h || contains (db c) (get_hour_event self name t) uuid.
Proof.
  intros Hm Hw Hd Hh t after. subst after.
  destruct (selected_keys_member self name t m w d h) as (Sm & Sw & Sd & Sh).
  repeat split; rewrite !contains_value, mark_event_value by assumption;
    fold t;
    match goal with
    | |- context [decide (?k ∈ ?l)] => destruct (decide (k ∈ l)) as [I|NI]
    end.
  - apply Sm in I. rewrite I, contains_setbit_same. reflexivity.
  - destruct m; [exfalso; apply NI, Sm; reflexivity | reflexivity].
  - apply Sw in I. rewrite I, contains_setbit_same. reflexivity.
  - destruct w; [exfalso; apply NI, Sw; reflexivity | reflexivity].
  - apply Sd in I. rewrite I, contains_setbit_same. reflexivity.
  - destruct d; [exfalso; apply NI, Sd; reflexivity | reflexivity].
  - apply Sh in I. rewrite I, contains_setbit_same. reflexivity.
  - destruct h; [exfalso; apply NI, Sh; reflexivity | reflexivity].
Qed.

Lemma mark_event_granularities_witness :
  let now := {| year := 2012; month := 1; day := 5; hour := 3;
                iso_year := 2012; iso_week := 1 |} in
  let after := db (snd (mark_event bm_default now "active" 1 None
                                   true true false false
                                   None (Some 3600) None None fresh)) in
  contains after (get_week_event bm_default "active" now) 1 = true /\
  contains after (get_day_event bm_default "active" now) 1 = false.
Proof.
  intros now after.
  assert (Hl : lasting (Some 3600)) by (cbn [lasting]; lia).
  destruct (mark_event_granularities bm_default now "active" 1 None
              true true false false None (Some 3600) None None fresh
              Logic.I Hl Logic.I Logic.I) as (_ & Hw & Hd & _).
  split; [exact Hw | exact Hd].
Defined.

(** X12: [mark_event] never changes the membership of another identity, in
    any bitmap. *)
Theorem mark_event_other_identities (self : Bitmapist) (utcnow : datetime)
        (name : string) (uuid : N) (now : option datetime) (m w d h : bool)
        (month_ttl week_ttl day_ttl hour_ttl : option Z) (c : client)
        (b : Bitmap) (v : N) :
  lasting month_ttl -> lasting week_ttl -> lasting day_ttl ->
  lasting hour_ttl ->
  v <> uuid ->
  contains (db (snd (mark_event self utcnow name uuid now m w d h
                                month_ttl week_ttl day_ttl hour_ttl c))) b v
  = contains (db c) b v.
Proof.
  intros Hm Hw Hd Hh Hne. rewrite !contains_value.
  rewrite mark_event_value by assumption.
  destruct (decide (_ ∈ _)); [| reflexivity].
  rewrite getbit_setbit_any.
  destruct (decide (uuid = v)); [congruence | reflexivity].
Qed.

Lemma mark_event_other_identities_witness :
  let now := {| year := 2012; month := 1; day := 5; hour := 3;
                iso_year := 2012; iso_week := 1 |} in
  contains (db (snd (mark_event bm_default now "active" 123 (Some now)
                                true true true true None None None None
                                fresh)))
           (get_month_event bm_default "active" now) 124
  = contains (db fresh) (get_month_event bm_default "active" now) 124.
Proof.
  intros now.
  apply (mark_event_other_identities bm_default now "active" 123 (Some now)
           true true true true None None None None fresh
           (get_month_event bm_default "active" now) 124
           Logic.I Logic.I Logic.I Logic.I).
  discriminate.
Defined.

Lemma len_value (s : gmap string bitmap) (b : Bitmap) :
  len s b = Ok (bitcount_all (value_of s (redis_key b))).
Proof. reflexivity. Qed.

(** X13: the whole count of a selected bucket after [mark_event] grows by one
    when the identity was not a member and stays when it was; the count
    of an unselected bucket of the same event and timestamp stays. *)
Theorem mark_event_count (self : Bitmapist) (utcnow : datetime)
        (name : string) (uuid : N) (now : option datetime) (m w d h : bool)
        (month_ttl week_ttl day_ttl hour_ttl : option Z) (c : client) :
  lasting month_ttl -> lasting week_ttl -> lasting day_ttl ->
  lasting hour_ttl ->
  let t := match now with Some t => t | None => utcnow end in
  let after := db (snd (mark_event self utcnow name uuid now m w d h
                                   month_ttl week_ttl day_ttl hour_ttl c)) in
  let grown (selected : bool) (b : Bitmap) : exc Z :=
    Ok (cli_bitcount (db c) (redis_key b)
        + (if selected && negb (contains (db c) b uuid) then 1 else 0)) in
  len after (get_month_event self name t)
  = grown m (get_month_event self name t) /\
  len after (get_week_event self name t)
  = grown w (get_week_event self name t) /\
  len after (get_day_event self name t)
  = grown d (get_day_event self name t) /\
  len after (get_hour_event self name t)
  = grown h (get_hour_event self name t).
Proof.
  intros Hm Hw Hd Hh t after grown. subst after grown. cbv beta.
  destruct (selected_keys_member self name t m w d h) as (Sm & Sw & Sd & Sh).
  assert (Hstep : forall (sel : bool) (b : Bitmap),
             (redis_key b ∈ selected_keys self name t m w d h <-> sel = true) ->
             len (db (snd (mark_event self utcnow name uuid now m w d h
                                      month_ttl week_ttl day_ttl hour_ttl c))) b
             = Ok (cli_bitcount (db c) (redis_key b)
                   + (if sel && negb (contains (db c) b uuid) then 1 else 0))).
  { intros sel b Hsel. rewrite len_value, mark_event_value by assumption.
    fold t. f_equal. unfold cli_bitcount.
    destruct (decide (_ ∈ _)) as [I|NI].
    - apply Hsel in I. subst sel. rewrite bitcount_setbit.
      change (getbit (value_of (db c) (redis_key b)) (Z.of_N uuid))
        with (cli_getbit (db c) (redis_key b) (Z.of_N uuid)).
      rewrite contains_getbit.
      destruct (contains (db c) b uuid); cbn; lia.
    - destruct sel; [exfalso; apply NI, Hsel; reflexivity |]. cbn. lia. }
  repeat split; apply Hstep; assumption.
Qed.

Lemma mark_event_count_witness :
  let now := {| year := 2012; month := 1; day := 5; hour := 3;
                iso_year := 2012; iso_week := 1 |} in
  let c1 := snd (mark_event bm_default now "active" 123 None
                            true true true true None None None None fresh) in
  let c2 := snd (mark_event bm_default now "active" 23232 None
                            true true true true None None None None c1) in
  let c3 := snd (mark_event bm_default now "active" 123 None
                            true true true true None None None None c2) in
  len (db c2) (get_month_event bm_default "active" now) = Ok 2 /\
  len (db c3) (get_month_event bm_default "active" now) = Ok 2.
Proof.
  intros now c1 c2 c3. split.
  - subst c2.
    rewrite (proj1 (mark_event_count bm_default now "active" 23232 None
                      true true true true None None None None c1
                      Logic.I Logic.I Logic.I Logic.I)).
    vm_compute. reflexivity.
  - subst c3.
    rewrite (proj1 (mark_event_count bm_default now "active" 123 None
                      true true true true None None None None c2
                      Logic.I Logic.I Logic.I Logic.I)).
    vm_compute. reflexivity.
Defined.

(** X14: [has_events_marked] is true for every selected bucket after
    [mark_event] and for an attribute after any accepted mark, also a
    mark with value 0 that leaves its count at 0; it is false exactly
    when the key is missing, and then nothing is counted. *)
Theorem has_events_marked_after_marking :
  (forall (self : Bitmapist) (utcnow : datetime) (name : string) (uuid : N)
          (now : option datetime) (m w d h : bool)
          (month_ttl week_ttl day_ttl hour_ttl : option Z) (c : client),
      lasting month_ttl -> lasting week_ttl -> lasting day_ttl ->
      lasting hour_ttl ->
      let t := match now with Some t => t | None => utcnow end in
      let after := db (snd (mark_event self utcnow name uuid now m w d h
                                       month_ttl week_ttl day_ttl hour_ttl c)) in
      (m = true -> has_events_marked after (get_month_event self name t) = true) /\
      (w = true -> has_events_marked after (get_week_event self name t) = true) /\
      (d = true -> has_events_marked after (get_day_event self name t) = true) /\
      (h = true -> has_events_marked after (get_hour_event self name t) = true)) /\
  (forall (self : Bitmapist) (name : string) (uuid : N) (mark_as : Z)
          (c : client),
      mark_as = 0 \/ mark_as = 1 ->
      has_events_marked (db (snd (mark_attribute self name (One uuid) mark_as c)))
                        (get_attribute self name) = true) /\
  (forall (s : gmap string bitmap) (b : Bitmap),
      has_events_marked s b = false -> len s b = Ok 0).
Proof.
  split; [| split].
  - intros self utcnow name uuid now m w d h month_ttl week_ttl day_ttl
           hour_ttl c Hm Hw Hd Hh t after. subst after.
    destruct (selected_keys_member self name t m w d h) as (Sm & Sw & Sd & Sh).
    repeat split; intros Hsel; unfold has_events_marked;
      rewrite mark_event_store by assumption; fold t;
      (destruct (decide (_ ∈ _)) as [_|NI]; [reflexivity | exfalso; apply NI]).
    + apply Sm, Hsel.
    + apply Sw, Hsel.
    + apply Sd, Hsel.
    + apply Sh, Hsel.
  - intros self name uuid mark_as c Hv. unfold has_events_marked.
    rewrite mark_attribute_db by exact Hv. rewrite lookup_insert_eq.
    reflexivity.
  - intros s b H. unfold has_events_marked in H.
    destruct (s !! redis_key b) eqn:E; [discriminate |].
    unfold len, get_count, cli_bitcount, value_of. rewrite E. reflexivity.
Qed.

Lemma has_events_marked_after_marking_witness :
  has_events_marked
    (db (snd (mark_attribute bm_default "paid_user" (One 9) 0 fresh)))
    (get_attribute bm_default "paid_user") = true /\
  len (db (snd (mark_attribute bm_default "paid_user" (One 9) 0 fresh)))
      (get_attribute bm_default "paid_user") = Ok 0 /\
  len (db fresh) (get_attribute bm_default "paid_user") = Ok 0.
Proof.
  destruct has_events_marked_after_marking as (_ & Hattr & Hmissing).
  split; [| split].
  - apply (Hattr bm_default "paid_user" 9%N 0 fresh). left. reflexivity.
  - vm_compute. reflexivity.
  - apply Hmissing. vm_compute. reflexivity.
Defined.

(** ** Composition: the bits of the derived bitmap *)

Lemma contains_testbit (s : gmap string bitmap) (h : Bitmap) (v : N) :
  contains s h v
  = N.testbit (nth (N.to_nat (v / 8)) (value_of s (redis_key h)) 0%N)
              (7 - v mod 8).
Proof.
  unfold contains, cli_getbit. rewrite getbit_of_N.
  destruct (N.testbit _ _); reflexivity.
Qed.

Lemma nth_map_zero (g : N -> N) (l : bitmap) (i : nat) :
  g 0%N = 0%N -> nth i (map g l) 0%N = g (nth i l 0%N).
Proof. intros H. rewrite <- H at 1. apply map_nth. Qed.

Lemma nth_zip_bytes (f : N -> N -> N) (a b : bitmap) (i : nat) :
  f 0%N 0%N = 0%N ->
  nth i (zip_bytes f a b) 0%N = f (nth i a 0%N) (nth i b 0%N).
Proof.
  intros H. revert b i. induction a as [|x a IH]; intros b i.
  - cbn [zip_bytes]. rewrite nth_map_zero by exact H.
    destruct i; reflexivity.
  - destruct b as [|y b].
    + cbn [zip_bytes]. rewrite (nth_map_zero (fun x => f x 0%N)) by exact H.
      destruct i; reflexivity.
    + cbn [zip_bytes]. destruct i as [|i]; cbn [nth]; [reflexivity | apply IH].
Qed.

Lemma nth_fold_zip (f : N -> N -> N) (rest : list bitmap) (a : bitmap)
      (i : nat) :
  f 0%N 0%N = 0%N ->
  nth i (fold_left (zip_bytes f) rest a) 0%N
  = fold_left f (map (fun x => nth i x 0%N) rest) (nth i a 0%N).
Proof.
  intros H. revert a. induction rest as [|r rest IH]; intros a;
    cbn [fold_left map]; [reflexivity |].
  rewrite IH, nth_zip_bytes by exact H. reflexivity.
Qed.

Lemma testbit_fold (f : N -> N -> N) (g : bool -> bool -> bool) (p : N)
      (l : list N) (a : N) :
  (forall x y, N.testbit (f x y) p = g (N.testbit x p) (N.testbit y p)) ->
  N.testbit (fold_left f l a) p
  = fold_left g (map (fun x => N.testbit x p) l) (N.testbit a p).
Proof.
  intros H. revert a. induction l as [|x l IH]; intros a; cbn [fold_left map];
    [reflexivity |].
  rewrite IH, H. reflexivity.
Qed.

(** The value a key holds after an accepted [BITOP] with result [bm]. *)
Lemma value_of_bitop_dest (s : gmap string bitmap) (dest : string) (bm : bitmap) :
  value_of (match bm with
            | [] => delete dest s
            | _ :: _ => <[dest := bm]> s
            end) dest = bm.
Proof.
  unfold value_of. destruct bm.
  - rewrite lookup_delete_eq. reflexivity.
  - rewrite lookup_insert_eq. reflexivity.
Qed.

Lemma lookup_bitop_other (s : gmap string bitmap) (dest k : string) (bm : bitmap) :
  k <> dest ->
  (match bm with
   | [] => delete dest s
   | _ :: _ => <[dest := bm]> s
   end) !! k = s !! k.
Proof.
  intros H. destruct bm.
  - apply lookup_delete_ne. congruence.
  - apply lookup_insert_ne. congruence.
Qed.

(** A composition whose request the store accepts: the handle is the
    derived key, the two requests are BITOP and EXPIRE, and the store
    holds the result under the derived key. *)
Lemma BitOperation_init_accepted (op prefix divider : string) (ttl : Z)
      (events : list Bitmap) (c : client) (k : bitop_kind) (bm : bitmap) :
  parse_bitop op = Some k ->
  bitop_result k (map (value_of (db c)) (map redis_key events)) = Some bm ->
  0 < ttl ->
  let dest := bitop_key op prefix divider (map redis_key events) in
  BitOperation_init op prefix divider ttl events c
  = (Ok {| redis_key := dest |},
     {| db := match bm with
              | [] => delete dest (db c)
              | _ :: _ => <[dest := bm]> (db c)
              end;
        sent := (sent c ++ [BITOP op dest (map redis_key events)])
                ++ [EXPIRE dest ttl] |}).
Proof.
  intros Hop Hres Httl dest. unfold BitOperation_init, call.
  cbn [redis_key store_apply]. fold dest. rewrite Hop, Hres.
  destruct (Z.leb_spec ttl 0) as [?|_]; [lia |].
  destruct bm; cbn [db sent]; destruct (Z.leb_spec ttl 0); try lia; reflexivity.
Qed.

Lemma fold_left_andb (l : list bool) (x : bool) :
  fold_left andb l x = x && forallb id l.
Proof.
  revert x. induction l as [|y l IH]; intros x; cbn [fold_left forallb].
  - rewrite andb_true_r. reflexivity.
  - rewrite IH. unfold id at 2. rewrite andb_assoc. reflexivity.
Qed.

Lemma fold_left_orb (l : list bool) (x : bool) :
  fold_left orb l x = x || existsb id l.
Proof.
  revert x. induction l as [|y l IH]; intros x; cbn [fold_left existsb].
  - rewrite orb_false_r. reflexivity.
  - rewrite IH. unfold id at 2. rewrite orb_assoc. reflexivity.
Qed.

Lemma forallb_map {A} (f : A -> bool) (l : list A) :
  forallb id (map f l) = forallb f l.
Proof. induction l as [|x l IH]; cbn; [reflexivity | rewrite IH; reflexivity]. Qed.

Lemma existsb_map {A} (f : A -> bool) (l : list A) :
  existsb id (map f l) = existsb f l.
Proof. induction l as [|x l IH]; cbn; [reflexivity | rewrite IH; reflexivity]. Qed.

(** The bit of an identity in the result of a fold of byte-wise
    operations over the operands, read in the store they come from. *)
Lemma composed_bit (f : N -> N -> N) (g : bool -> bool -> bool)
      (s : gmap string bitmap) (a : Bitmap) (rest : list Bitmap) (u : N) :
  f 0%N 0%N = 0%N ->
  (forall x y p, N.testbit (f x y) p = g (N.testbit x p) (N.testbit y p)) ->
  N.testbit
    (nth (N.to_nat (u / 8))
         (fold_left (zip_bytes f)
                    (map (value_of s) (map redis_key rest))
                    (value_of s (redis_key a))) 0%N)
    (7 - u mod 8)
  = fold_left g (map (fun o => contains s o u) rest) (contains s a u).
Proof.
  intros H0 Hg. rewrite nth_fold_zip by exact H0.
  rewrite (testbit_fold f g) by (intros x y; apply Hg).
  rewrite contains_testbit, !map_map. f_equal.
  apply map_ext. intros o. rewrite contains_testbit. reflexivity.
Qed.

Lemma compose_accepted (self : Bitmapist) (op : string) (k : bitop_kind)
      (operands : list Bitmap) (c : client) (bm : bitmap) :
  parse_bitop op = Some k ->
  bitop_result k (map (value_of (db c)) (map redis_key operands)) = Some bm ->
  0 < temp_ttl self ->
  let dest := bitop_key op (prefix self) (divider self)
                        (map redis_key operands) in
  let r := BitOperation_init op (prefix self) (divider self) (temp_ttl self)
                             operands c in
  fst r = Ok (handle dest) /\
  value_of (db (snd r)) dest = bm /\
  (forall key, key <> dest -> db (snd r) !! key = db c !! key) /\
  sent (snd r)
  = sent c ++ [BITOP op dest (map redis_key operands);
               EXPIRE dest (temp_ttl self)].
Proof.
  intros Hop Hres Httl dest r. subst r.
  rewrite (BitOperation_init_accepted _ _ _ _ _ _ k bm Hop Hres Httl).
  fold dest. cbn [fst snd db sent]. repeat split.
  - apply value_of_bitop_dest.
  - intros key Hne. apply lookup_bitop_other. exact Hne.
  - rewrite <- app_assoc. reflexivity.
Qed.

Lemma bit_op_and_contains (self : Bitmapist) (a : Bitmap) (rest : list Bitmap)
      (c : client) (u : N) :
  0 < temp_ttl self ->
  let h := handle (bitop_key "AND" (prefix self) (divider self)
                             (map redis_key (a :: rest))) in
  fst (bit_op_and self (a :: rest) c) = Ok h /\
  contains (db (snd (bit_op_and self (a :: rest) c))) h u
  = forallb (fun o => contains (db c) o u) (a :: rest).
Proof.
  intros Httl h. subst h. unfold bit_op_and, BitOpAnd.
  destruct (compose_accepted
              self "AND" OpAnd (a :: rest) c
              (fold_left (zip_bytes N.land)
                         (map (value_of (db c)) (map redis_key rest))
                         (value_of (db c) (redis_key a)))
              eq_refl eq_refl Httl) as (Hh & Hv & _).
  split; [exact Hh |].
  rewrite contains_testbit. cbn [redis_key handle]. rewrite Hv.
  rewrite (composed_bit N.land andb) by (auto using N.land_spec).
  rewrite fold_left_andb, forallb_map. reflexivity.
Qed.

Lemma bit_op_or_contains (self : Bitmapist) (a : Bitmap) (rest : list Bitmap)
      (c : client) (u : N) :
  0 < temp_ttl self ->
  let h := handle (bitop_key "OR" (prefix self) (divider self)
                             (map redis_key (a :: rest))) in
  fst (bit_op_or self (a :: rest) c) = Ok h /\
  contains (db (snd (bit_op_or self (a :: rest) c))) h u
  = existsb (fun o => contains (db c) o u) (a :: rest).
Proof.
  intros Httl h. subst h. unfold bit_op_or, BitOpOr.
  destruct (compose_accepted
              self "OR" OpOr (a :: rest) c
              (fold_left (zip_bytes N.lor)
                         (map (value_of (db c)) (map redis_key rest))
                         (value_of (db c) (redis_key a)))
              eq_refl eq_refl Httl) as (Hh & Hv & _).
  split; [exact Hh |].
  rewrite contains_testbit. cbn [redis_key handle]. rewrite Hv.
  rewrite (composed_bit N.lor orb) by (auto using N.lor_spec).
  rewrite fold_left_orb, existsb_map. reflexivity.
Qed.

Lemma bit_op_xor_contains (self : Bitmapist) (a : Bitmap) (rest : list Bitmap)
      (c : client) (u : N) :
  0 < temp_ttl self ->
  let h := handle (bitop_key "XOR" (prefix self) (divider self)
                             (map redis_key (a :: rest))) in
  fst (bit_op_xor self (a :: rest) c) = Ok h /\
  contains (db (snd (bit_op_xor self (a :: rest) c))) h u
  = fold_left xorb (map (fun o => contains (db c) o u) (a :: rest)) false.
Proof.
  intros Httl h. subst h. unfold bit_op_xor, BitOpXor.
  destruct (compose_accepted
              self "XOR" OpXor (a :: rest) c
              (fold_left (zip_bytes N.lxor)
                         (map (value_of (db c)) (map redis_key rest))
                         (value_of (db c) (redis_key a)))
              eq_refl eq_refl Httl) as (Hh & Hv & _).
  split; [exact Hh |].
  rewrite contains_testbit. cbn [redis_key handle]. rewrite Hv.
  rewrite (composed_bit N.lxor xorb) by (auto using N.lxor_spec).
  reflexivity.
Qed.

(** X15: the derived bitmap of [bit_op_and], [bit_op_or] and [bit_op_xor]
    over at least one operand, with a positive lifetime: the call
    returns the handle of the derived key, and an identity is a member
    of it when it is a member of all operands (AND), of some operand
    (OR), of an odd number of operands (XOR), as read before the call. *)
Theorem composition_membership (self : Bitmapist) (operands : list Bitmap)
        (c : client) (u : N) :
  operands <> [] -> 0 < temp_ttl self ->
  let derived op :=
    handle (bitop_key op (prefix self) (divider self)
                      (map redis_key operands)) in
  (fst (bit_op_and self operands c) = Ok (derived "AND") /\
   contains (db (snd (bit_op_and self operands c))) (derived "AND") u
   = forallb (fun o => contains (db c) o u) operands) /\
  (fst (bit_op_or self operands c) = Ok (derived "OR") /\
   contains (db (snd (bit_op_or self operands c))) (derived "OR") u
   = existsb (fun o => contains (db c) o u) operands) /\
  (fst (bit_op_xor self operands c) = Ok (derived "XOR") /\
   contains (db (snd (bit_op_xor self operands c))) (derived "XOR") u
   = fold_left xorb (map (fun o => contains (db c) o u) operands) false).
Proof.
  intros Hne Httl derived. subst derived. cbv beta.
  destruct operands as [|a rest]; [congruence |].
  split; [| split].
  - apply bit_op_and_contains, Httl.
  - apply bit_op_or_contains, Httl.
  - apply bit_op_xor_contains, Httl.
Qed.

Lemma composition_membership_witness :
  let a := get_attribute bm_default "paid_user" in
  let c1 := snd (mark_attribute_multi bm_default "trial" [130; 500]%N 1
                                      paid_users) in
  let b := get_attribute bm_default "trial" in
  contains (db (snd (bit_op_and bm_default [a; b] c1)))
           (handle (bitop_key "AND" "trackist" ":" (map redis_key [a; b]))) 130
  = true /\
  contains (db (snd (bit_op_and bm_default [a; b] c1)))
           (handle (bitop_key "AND" "trackist" ":" (map redis_key [a; b]))) 500
  = false.
Proof.
  intros a c1 b.
  assert (Hne : [a; b] <> []) by discriminate.
  assert (Httl : 0 < temp_ttl bm_default) by (vm_compute; reflexivity).
  split.
  - exact (proj2 (proj1 (composition_membership bm_default [a; b] c1 130
                           Hne Httl))).
  - exact (proj2 (proj1 (composition_membership bm_default [a; b] c1 500
                           Hne Httl))).
Defined.

Lemma contains_same_key (s : gmap string bitmap) (a b : Bitmap) (u : N) :
  redis_key a = redis_key b -> contains s a u = contains s b u.
Proof. intros E. unfold contains. rewrite E. reflexivity. Qed.

Lemma contains_same_value (s s' : gmap string bitmap) (b : Bitmap) (u : N) :
  s' !! redis_key b = s !! redis_key b -> contains s' b u = contains s b u.
Proof. intros E. unfold contains, cli_getbit, value_of. rewrite E. reflexivity. Qed.

(** X16: nesting: [AND(AND(a, b), b)] has the members of [AND(a, b)], whatever
    the keys of [a] and [b] are. *)
Theorem nested_and_membership (self : Bitmapist) (a b : Bitmap) (c : client)
        (u : N) :
  0 < temp_ttl self ->
  let inner := handle (bitop_key "AND" (prefix self) (divider self)
                                 [redis_key a; redis_key b]) in
  let c1 := snd (bit_op_and self [a; b] c) in
  let outer := handle (bitop_key "AND" (prefix self) (divider self)
                                 [redis_key inner; redis_key b]) in
  fst (bit_op_and self [a; b] c) = Ok inner /\
  fst (bit_op_and self [inner; b] c1) = Ok outer /\
  contains (db (snd (bit_op_and self [inner; b] c1))) outer u
  = contains (db c1) inner u.
Proof.
  intros Httl inner c1 outer.
  destruct (bit_op_and_contains self a [b] c u Httl) as [Hh1 Hm1].
  destruct (bit_op_and_contains self inner [b] c1 u Httl) as [Hh2 Hm2].
  cbv zeta in Hh1, Hm1, Hh2, Hm2. cbn [map] in Hh1, Hm1, Hh2, Hm2.
  fold inner in Hh1, Hm1. fold c1 in Hm1. fold outer in Hh2, Hm2.
  split; [exact Hh1 | split; [exact Hh2 |]].
  rewrite Hm2. cbn [forallb]. rewrite andb_true_r.
  destruct (decide (redis_key b = redis_key inner)) as [E|NE].
  - rewrite (contains_same_key (db c1) b inner u E). apply andb_diag.
  - assert (Hb : contains (db c1) b u = contains (db c) b u).
    { apply contains_same_value. subst c1. unfold bit_op_and, BitOpAnd.
      destruct (compose_accepted
                  self "AND" OpAnd [a; b] c
                  (fold_left (zip_bytes N.land)
                             (map (value_of (db c)) (map redis_key [b]))
                             (value_of (db c) (redis_key a)))
                  eq_refl eq_refl Httl) as (_ & _ & Hother & _).
      apply Hother. exact NE. }
    rewrite Hb, Hm1. cbn [forallb]. rewrite andb_true_r.
    destruct (contains (db c) a u), (contains (db c) b u); reflexivity.
Qed.

Lemma nested_and_membership_witness :
  let a := get_attribute bm_default "paid_user" in
  let c0 := snd (mark_attribute_multi bm_default "trial" [130; 500]%N 1
                                      paid_users) in
  let b := get_attribute bm_default "trial" in
  let inner := handle (bitop_key "AND" (prefix bm_default)
                                 (divider bm_default)
                                 [redis_key a; redis_key b]) in
  let c1 := snd (bit_op_and bm_default [a; b] c0) in
  contains (db (snd (bit_op_and bm_default [inner; b] c1)))
           (handle (bitop_key "AND" (prefix bm_default) (divider bm_default)
                              [redis_key inner; redis_key b])) 130
  = contains (db c1) inner 130.
Proof.
  intros a c0 b inner c1.
  assert (Httl : 0 < temp_ttl bm_default) by (vm_compute; reflexivity).
  exact (proj2 (proj2 (nested_and_membership bm_default a b c0 130 Httl))).
Defined.

(** ** Composition: NOT *)

Lemma testbit_255 (p : N) : (p < 8)%N -> N.testbit 255 p = true.
Proof.
  intros H.
  assert (Hc : (p = 0 \/ p = 1 \/ p = 2 \/ p = 3 \/ p = 4 \/ p = 5 \/ p = 6
                \/ p = 7)%N) by lia.
  destruct Hc as [-> | [-> | [-> | [-> | [-> | [-> | [-> | ->]]]]]]];
    reflexivity.
Qed.

Lemma popcount_complement (b : N) : popcount (N.lxor b 255) = 8 - popcount b.
Proof.
  unfold popcount, bit_of_byte. cbn [map Zsum fold_right].
  rewrite !N.lxor_spec.
  change (7 - Z.to_N 0)%N with 7%N. change (7 - Z.to_N 1)%N with 6%N.
  change (7 - Z.to_N 2)%N with 5%N. change (7 - Z.to_N 3)%N with 4%N.
  change (7 - Z.to_N 4)%N with 3%N. change (7 - Z.to_N 5)%N with 2%N.
  change (7 - Z.to_N 6)%N with 1%N. change (7 - Z.to_N 7)%N with 0%N.
  rewrite !testbit_255 by lia.
  destruct (N.testbit b 7), (N.testbit b 6), (N.testbit b 5),
    (N.testbit b 4), (N.testbit b 3), (N.testbit b 2), (N.testbit b 1),
    (N.testbit b 0); reflexivity.
Qed.

Lemma bitcount_complement (bm : bitmap) :
  bitcount_all (map (fun b => N.lxor b 255) bm)
  = 8 * strlen bm - bitcount_all bm.
Proof.
  unfold bitcount_all, strlen. induction bm as [|b bm IH]; [reflexivity |].
  cbn [map length]. rewrite !Zsum_cons, IH, popcount_complement. lia.
Qed.

Lemma nth_complement (bm : bitmap) (i : nat) :
  nth i (map (fun b => N.lxor b 255) bm) 0%N
  = if (i <? length bm)%nat then N.lxor (nth i bm 0%N) 255 else 0%N.
Proof.
  destruct (Nat.ltb_spec i (length bm)) as [Hlt|Hge].
  - rewrite (nth_indep _ 0%N (N.lxor 0 255)) by (rewrite length_map; exact Hlt).
    apply (map_nth (fun b => N.lxor b 255)).
  - apply nth_overflow. rewrite length_map. exact Hge.
Qed.

(** X17: [bit_op_not] with a positive lifetime: the call returns the handle
    of the derived key; the derived bitmap has the operand's length in
    bytes, so its count is eight times that length minus the operand's
    count, and an identity is a member of it when it lies inside the
    operand's bytes and is not a member of the operand. *)
Theorem bit_op_not_result (self : Bitmapist) (b : Bitmap) (c : client) :
  0 < temp_ttl self ->
  let h := handle (bitop_key "Not" (prefix self) (divider self)
                             [redis_key b]) in
  let after := db (snd (bit_op_not self b c)) in
  let bytes := length (value_of (db c) (redis_key b)) in
  fst (bit_op_not self b c) = Ok h /\
  len after h = Ok (8 * Z.of_nat bytes - cli_bitcount (db c) (redis_key b)) /\
  (forall u : N,
      contains after h u
      = (u <? 8 * N.of_nat bytes)%N && negb (contains (db c) b u)).
Proof.
  intros Httl h after bytes. subst h after bytes.
  unfold bit_op_not, BitOpNot.
  destruct (compose_accepted
              self "Not" OpNot [b] c
              (map (fun x => N.lxor x 255) (value_of (db c) (redis_key b)))
              eq_refl eq_refl Httl) as (Hh & Hv & _).
  cbn [map] in Hh, Hv.
  split; [exact Hh | split].
  - rewrite len_value. cbn [redis_key handle]. rewrite Hv.
    rewrite bitcount_complement. reflexivity.
  - intros u. rewrite !contains_testbit. cbn [redis_key handle]. rewrite Hv.
    rewrite nth_complement.
    set (bm := value_of (db c) (redis_key b)).
    pose proof (N.div_mod' u 8) as Hu.
    assert (Lu : (u mod 8 < 8)%N) by (apply N.mod_lt; discriminate).
    revert Hu Lu. generalize (u mod 8)%N as r. generalize (u / 8)%N as q.
    intros q r Hu Lu.
    destruct (Nat.ltb_spec (N.to_nat q) (length bm)) as [Hin|Hout];
      destruct (N.ltb_spec u (8 * N.of_nat (length bm))) as [Hin'|Hout'];
      try lia.
    + assert (Hp : (7 - r < 8)%N) by lia.
      rewrite N.lxor_spec, (testbit_255 _ Hp).
      cbn [andb]. apply xorb_true_r.
    + rewrite N.bits_0. reflexivity.
Qed.

Lemma bit_op_not_result_witness :
  let paid := get_attribute bm_default "paid_user" in
  let c1 := snd (mark_attribute bm_default "paid_user" (One 4) 1 fresh) in
  let c2 := snd (mark_attribute bm_default "paid_user" (One 7) 1 c1) in
  len (db (snd (bit_op_not bm_default paid c2)))
      (handle (bitop_key "Not" (prefix bm_default) (divider bm_default)
                         [redis_key paid])) = Ok 6.
Proof.
  intros paid c1 c2.
  assert (Httl : 0 < temp_ttl bm_default) by (vm_compute; reflexivity).
  exact (proj1 (proj2 (bit_op_not_result bm_default paid c2 Httl))).
Defined.

(** ** Composition: what is sent and what is left alone *)

(** X18: a composition with a positive lifetime and a fitting number of
    operands (one for NOT, at least one otherwise) returns the handle of
    the derived key, sends exactly BITOP and then EXPIRE with the
    configured lifetime, and changes no key but the derived one. *)
Theorem composition_footprint (self : Bitmapist) (op : composition)
        (operands : list Bitmap) (c : client) :
  0 < temp_ttl self ->
  operands <> [] ->
  (op = NOT -> length operands = 1%nat) ->
  let dest := bitop_key (op_name op) (prefix self) (divider self)
                        (map redis_key operands) in
  let c' := snd (compose self op operands c) in
  fst (compose self op operands c) = Ok (handle dest) /\
  sent c' = sent c ++ [BITOP (op_name op) dest (map redis_key operands);
                       EXPIRE dest (temp_ttl self)] /\
  (forall key : string, key <> dest -> db c' !! key = db c !! key).
Proof.
  intros Httl Hne Hnot dest c'. subst dest c'.
  destruct operands as [|a rest]; [congruence |]. clear Hne.
  destruct op; cbn [compose op_name];
    unfold bit_op_and, bit_op_or, bit_op_xor, BitOpAnd, BitOpOr, BitOpXor.
  - destruct (compose_accepted
                self "AND" OpAnd (a :: rest) c
                (fold_left (zip_bytes N.land)
                           (map (value_of (db c)) (map redis_key rest))
                           (value_of (db c) (redis_key a)))
                eq_refl eq_refl Httl) as (Hh & _ & Ho & Hs).
    repeat split; assumption.
  - destruct (compose_accepted
                self "OR" OpOr (a :: rest) c
                (fold_left (zip_bytes N.lor)
                           (map (value_of (db c)) (map redis_key rest))
                           (value_of (db c) (redis_key a)))
                eq_refl eq_refl Httl) as (Hh & _ & Ho & Hs).
    repeat split; assumption.
  - destruct (compose_accepted
                self "XOR" OpXor (a :: rest) c
                (fold_left (zip_bytes N.lxor)
                           (map (value_of (db c)) (map redis_key rest))
                           (value_of (db c) (redis_key a)))
                eq_refl eq_refl Httl) as (Hh & _ & Ho & Hs).
    repeat split; assumption.
  - specialize (Hnot eq_refl). destruct rest as [|x rest];
      [| cbn [length] in Hnot; lia].
    unfold call_bit_op_not, bit_op_not, BitOpNot.
    destruct (compose_accepted
                self "Not" OpNot [a] c
                (map (fun x => N.lxor x 255) (value_of (db c) (redis_key a)))
                eq_refl eq_refl Httl) as (Hh & _ & Ho & Hs).
    repeat split; assumption.
Qed.

Lemma composition_footprint_witness :
  let paid := get_attribute bm_default "paid_user" in
  sent (snd (compose bm_default NOT [paid] fresh))
  = sent fresh ++ [BITOP "Not" "trackist:bitop:Not:trackist:at:paid_user"
                         ["trackist:at:paid_user"];
                   EXPIRE "trackist:bitop:Not:trackist:at:paid_user" 60] /\
  db (snd (compose bm_default NOT [paid] paid_users)) !! "trackist:at:paid_user"
  = db paid_users !! "trackist:at:paid_user".
Proof.
  intros paid.
  assert (Httl : 0 < temp_ttl bm_default) by (vm_compute; reflexivity).
  assert (Hne : [paid] <> []) by discriminate.
  split.
  - exact (proj1 (proj2 (composition_footprint bm_default NOT [paid] fresh
                           Httl Hne (fun _ => eq_refl)))).
  - apply (proj2 (proj2 (composition_footprint bm_default NOT [paid] paid_users
                           Httl Hne (fun _ => eq_refl)))).
    discriminate.
Defined.

(** ** Key families *)

Lemma key_families (prefix divider name name' tok op joined : string) :
  at_template prefix divider name <> ev_template prefix divider name' tok /\
  bitop_template prefix divider op joined <> at_template prefix divider name /\
  bitop_template prefix divider op joined
  <> ev_template prefix divider name' tok /\
  (at_template prefix divider name = at_template prefix divider name' ->
   name = name').
Proof.
  unfold at_template, ev_template, bitop_template.
  repeat split; intros E; do 2 (apply (inj (String.app _)) in E);
    try discriminate E.
  do 2 (apply (inj (String.app _)) in E). exact E.
Qed.

Lemma attribute_key (self : Bitmapist) (name : string) :
  redis_key (get_attribute self name)
  = at_template (prefix self) (divider self) name.
Proof. reflexivity. Qed.

Lemma derived_key (op prefix divider : string) (keys : list string) :
  bitop_key op prefix divider keys
  = bitop_template prefix divider op (join "-" keys).
Proof. reflexivity. Qed.

(** X19: for one [Bitmapist], attribute keys, event keys and derived keys
    never coincide, whatever the prefix, the divider and the names are;
    and attribute keys differ when the attribute names do. *)
Theorem key_families_disjoint (self : Bitmapist) (name name' : string)
        (t : datetime) (op : string) (keys : list string) :
  let at_key := redis_key (get_attribute self name) in
  let bitop := bitop_key op (prefix self) (divider self) keys in
  (at_key <> redis_key (get_month_event self name' t) /\
   at_key <> redis_key (get_week_event self name' t) /\
   at_key <> redis_key (get_day_event self name' t) /\
   at_key <> redis_key (get_hour_event self name' t)) /\
  (bitop <> at_key /\
   bitop <> redis_key (get_month_event self name' t) /\
   bitop <> redis_key (get_week_event self name' t) /\
   bitop <> redis_key (get_day_event self name' t) /\
   bitop <> redis_key (get_hour_event self name' t)) /\
  (name <> name' -> at_key <> redis_key (get_attribute self name')).
Proof.
  cbv zeta.
  rewrite month_key, week_key, day_key, hour_key, !attribute_key, derived_key.
  pose proof (fun tok => key_families (prefix self) (divider self)
                                      name name' tok op (join "-" keys)) as K.
  split; [| split].
  - split; [| split; [| split]]; apply (proj1 (K _)).
  - split; [apply (proj1 (proj2 (K ""))) |].
    split; [| split; [| split]]; apply (proj1 (proj2 (proj2 (K _)))).
  - intros Hne E. apply Hne, (proj2 (proj2 (proj2 (K "")))), E.
Qed.

Lemma key_families_disjoint_witness :
  redis_key (get_attribute bm_default "paid_user")
  <> redis_key (get_attribute bm_default "trial").
Proof.
  destruct (key_families_disjoint
              bm_default "paid_user" "trial"
              {| year := 2012; month := 1; day := 5; hour := 3;
                 iso_year := 2012; iso_week := 1 |} "AND" [])
    as (_ & _ & Hinj).
  apply Hinj. discriminate.
Defined.

(** X20: bucket keys of one event name decode: two buckets of the same
    granularity share a key exactly when their period fields agree. *)
Theorem event_keys_decode (self : Bitmapist) (name : string) (t t' : datetime) :
  (redis_key (get_month_event self name t)
   = redis_key (get_month_event self name t')
   <-> year t = year t' /\ month t = month t') /\
  (redis_key (get_week_event self name t)
   = redis_key (get_week_event self name t')
   <-> iso_year t = iso_year t' /\ iso_week t = iso_week t') /\
  (redis_key (get_day_event self name t)
   = redis_key (get_day_event self name t')
   <-> year t = year t' /\ month t = month t' /\ day t = day t') /\
  (redis_key (get_hour_event self name t)
   = redis_key (get_hour_event self name t')
   <-> year t = year t' /\ month t = month t' /\ day t = day t'
       /\ hour t = hour t').
Proof.
  rewrite !month_key, !week_key, !day_key, !hour_key.
  repeat split.
  - apply ev_template_token, month_token_inj in H. tauto.
  - apply ev_template_token, month_token_inj in H. tauto.
  - intros [E1 E2]. unfold month_token. rewrite E1, E2. reflexivity.
  - apply ev_template_token, week_token_inj in H. tauto.
  - apply ev_template_token, week_token_inj in H. tauto.
  - intros [E1 E2]. unfold week_token. rewrite E1, E2. reflexivity.
  - apply ev_template_token, day_token_inj in H. tauto.
  - apply ev_template_token, day_token_inj in H. tauto.
  - apply ev_template_token, day_token_inj in H. tauto.
  - intros (E1 & E2 & E3). unfold day_token. rewrite E1, E2, E3. reflexivity.
  - apply ev_template_token, hour_token_inj in H. tauto.
  - apply ev_template_token, hour_token_inj in H. tauto.
  - apply ev_template_token, hour_token_inj in H. tauto.
  - apply ev_template_token, hour_token_inj in H. tauto.
  - intros (E1 & E2 & E3 & E4). unfold hour_token.
    rewrite E1, E2, E3, E4. reflexivity.
Qed.

Lemma event_keys_decode_witness :
  redis_key (get_day_event bm_default "active"
               {| year := 2012; month := 1; day := 5; hour := 3;
                  iso_year := 2012; iso_week := 1 |})
  = redis_key (get_day_event bm_default "active"
                 {| year := 2012; month := 1; day := 5; hour := 17;
                    iso_year := 2012; iso_week := 1 |}).
Proof.
  apply (proj2 (proj1 (proj2 (proj2
           (event_keys_decode bm_default "active"
              {| year := 2012; month := 1; day := 5; hour := 3;
                 iso_year := 2012; iso_week := 1 |}
              {| year := 2012; month := 1; day := 5; hour := 17;
                 iso_year := 2012; iso_week := 1 |}))))).
  repeat split; reflexivity.
Defined.

(** ** Marking: isolation and idempotence *)

Lemma selected_keys_are_event_keys (self : Bitmapist) (name : string)
      (t : datetime) (m w d h : bool) (k : string) :
  k ∈ selected_keys self name t m w d h ->
  exists tok, k = ev_template (prefix self) (divider self) name tok.
Proof.
  unfold selected_keys. intros I.
  destruct m, w, d, h; cbn [app] in I; in_list; subst k;
    rewrite ?month_key, ?week_key, ?day_key, ?hour_key; eexists; reflexivity.
Qed.

(** X21: attributes and events do not reach each other, whatever the prefix,
    the divider and the names are: marking an attribute changes no
    membership in any event bucket, and marking an event changes no
    membership in any attribute. *)
Theorem marking_isolation (self : Bitmapist) :
  (forall (name : string) (uuid : N) (mark_as : Z) (c : client)
          (name' : string) (t : datetime) (v : N),
      mark_as = 0 \/ mark_as = 1 ->
      let after := db (snd (mark_attribute self name (One uuid) mark_as c)) in
      contains after (get_month_event self name' t) v
      = contains (db c) (get_month_event self name' t) v /\
      contains after (get_week_event self name' t) v
      = contains (db c) (get_week_event self name' t) v /\
      contains after (get_day_event self name' t) v
      = contains (db c) (get_day_event self name' t) v /\
      contains after (get_hour_event self name' t) v
      = contains (db c) (get_hour_event self name' t) v) /\
  (forall (utcnow : datetime) (name : string) (uuid : N)
          (now : option datetime) (m w d h : bool)
          (month_ttl week_ttl day_ttl hour_ttl : option Z) (c : client)
          (name' : string) (v : N),
      lasting month_ttl -> lasting week_ttl -> lasting day_ttl ->
      lasting hour_ttl ->
      contains (db (snd (mark_event self utcnow name uuid now m w d h
                                    month_ttl week_ttl day_ttl hour_ttl c)))
               (get_attribute self name') v
      = contains (db c) (get_attribute self name') v).
Proof.
  split.
  - intros name uuid mark_as c name' t v Hv after. subst after.
    rewrite mark_attribute_db by exact Hv.
    repeat split; rewrite contains_store_setbit;
      (destruct (decide (_ /\ _)) as [[E _]|_]; [exfalso | reflexivity]);
      rewrite attribute_key, ?month_key, ?week_key, ?day_key, ?hour_key in E;
      exact (proj1 (key_families _ _ _ _ _ "" "") E).
  - intros utcnow name uuid now m w d h month_ttl week_ttl day_ttl hour_ttl c
           name' v Hm Hw Hd Hh.
    rewrite !contains_value, mark_event_value by assumption.
    destruct (decide (_ ∈ _)) as [I|_]; [exfalso | reflexivity].
    apply selected_keys_are_event_keys in I as [tok E].
    rewrite attribute_key in E.
    exact (proj1 (key_families _ _ _ _ _ "" "") E).
Qed.

Lemma marking_isolation_witness :
  let now := {| year := 2012; month := 1; day := 5; hour := 3;
                iso_year := 2012; iso_week := 1 |} in
  contains (db (snd (mark_attribute
                       {| prefix := "p"; divider := "-"; temp_ttl := 60 |}
                       "ev-a-2012" (One 5) 1 fresh)))
           (get_month_event {| prefix := "p"; divider := "-"; temp_ttl := 60 |}
                            "a" now) 5
  = contains (db fresh)
             (get_month_event {| prefix := "p"; divider := "-"; temp_ttl := 60 |}
                              "a" now) 5.
Proof.
  intros now.
  apply (proj1 (marking_isolation
                  {| prefix := "p"; divider := "-"; temp_ttl := 60 |})
               "ev-a-2012" 5%N 1 fresh "a" now 5%N).
  right. reflexivity.
Defined.

Lemma update_byte_twice (bm : bitmap) (i : nat) (f g : N -> N) :
  update_byte (update_byte bm i f) i g = update_byte bm i (fun x => g (f x)).
Proof.
  revert bm. induction i as [|i IH]; intros [|b bm]; cbn [update_byte];
    try reflexivity.
  - f_equal. apply (IH []).
  - f_equal. apply IH.
Qed.

Lemma update_byte_ext (bm : bitmap) (i : nat) (f g : N -> N) :
  (forall x, f x = g x) -> update_byte bm i f = update_byte bm i g.
Proof.
  intros H. revert bm. induction i as [|i IH]; intros [|b bm];
    cbn [update_byte]; rewrite ?H, ?IH; reflexivity.
Qed.

Lemma setbit_idempotent (bm : bitmap) (u : N) (v : bool) :
  setbit (setbit bm u v) u v = setbit bm u v.
Proof.
  unfold setbit. rewrite update_byte_twice. apply update_byte_ext.
  intros x. apply N.bits_inj. intros n. destruct v.
  - rewrite !N.setbit_eqb. destruct (N.eqb _ n); reflexivity.
  - rewrite !N.clearbit_eqb. destruct (N.eqb _ n), (N.testbit x n); reflexivity.
Qed.

(** X22: marking is idempotent on the store: a second identical [mark_event]
    (lasting lifetimes) or [mark_attribute] leaves every bitmap as the
    first one left it. *)
Theorem marking_idempotent :
  (forall (self : Bitmapist) (utcnow : datetime) (name : string) (uuid : N)
          (now : option datetime) (m w d h : bool)
          (month_ttl week_ttl day_ttl hour_ttl : option Z) (c : client),
      lasting month_ttl -> lasting week_ttl -> lasting day_ttl ->
      lasting hour_ttl ->
      let once := snd (mark_event self utcnow name uuid now m w d h
                                  month_ttl week_ttl day_ttl hour_ttl c) in
      db (snd (mark_event self utcnow name uuid now m w d h
                          month_ttl week_ttl day_ttl hour_ttl once))
      = db once) /\
  (forall (self : Bitmapist) (name : string) (uuid : N) (mark_as : Z)
          (c : client),
      mark_as = 0 \/ mark_as = 1 ->
      let once := snd (mark_attribute self name (One uuid) mark_as c) in
      db (snd (mark_attribute self name (One uuid) mark_as once)) = db once).
Proof.
  split.
  - intros self utcnow name uuid now m w d h month_ttl week_ttl day_ttl
           hour_ttl c Hm Hw Hd Hh once. subst once.
    apply map_eq. intros k. rewrite mark_event_store by assumption.
    destruct (decide (_ ∈ _)) as [I|NI].
    + rewrite mark_event_value, mark_event_store by assumption.
      destruct (decide (_ ∈ _)) as [_|NI]; [| contradiction].
      rewrite setbit_idempotent. reflexivity.
    + reflexivity.
  - intros self name uuid mark_as c Hv once. subst once.
    rewrite !mark_attribute_db by exact Hv.
    rewrite value_of_insert.
    destruct (decide (_ = _)) as [_|NE]; [| contradiction].
    rewrite setbit_idempotent. apply insert_insert_eq.
Qed.

Lemma marking_idempotent_witness :
  let once := snd (mark_attribute bm_default "paid_user" (One 130) 0
                                  paid_users) in
  db (snd (mark_attribute bm_default "paid_user" (One 130) 0 once)) = db once.
Proof.
  intros once.
  apply (proj2 marking_idempotent bm_default "paid_user" 130%N 0 paid_users).
  left. reflexivity.
Defined.
